(** * submit_application.py: payload construction, signing and submission

    A shallow embedding of [src/submit_application.py] and of the parts of
    the Python standard library it calls ([str.encode], [bytes.decode],
    [json.dumps], [json.loads], [hmac.new], [hashlib.sha256],
    [datetime.isoformat], [str.replace]), followed by the properties the
    specification states about them.

    Conventions.
    - A Python [str] is a sequence of code points: [pystr := list N].
      Lone surrogates are legal elements of a [str], exactly as in Python.
    - [bytes] are lists of numbers below 256.
    - A call that may raise returns a [result]; code that also reads or
      changes the outside world (clock, environment, network, standard
      output, files) lives in the monad [M].

    What the model takes from the environment.
    - The clock gives [datetime] values; the network answers a call of
      [urlopen] with a response, an error response or no response (the
      outcome the whole call ends with, a redirection followed inside it
      included), and reading a body may fail ([IncompleteRead] stands for
      the exception of the connection, whichever it is); opening the output
      file may fail.
    - Standard output is taken as a UTF-8 text stream with strict error
      handling, which otherwise accepts every line. CPython sets it up so
      except in the C, POSIX and C.UTF-8 locales, where it uses
      [surrogateescape] and prints a string whose surrogates are all in
      U+DC80..U+DCFF. Files are written as UTF-8 too, one entry of [files]
      for each [print] to a file, with the text as it is.
    - The library functions are those of CPython with its [_json]
      accelerator; the interpreter stack is as deep as a JSON text needs
      (CPython gives up with [RecursionError], an [Exception], at about a
      thousand nested brackets). *)

From Stdlib Require Import NArith ZArith List String Ascii Bool Lia.
Import ListNotations.

Set Warnings "-register-all,-abstract-large-number".
Local Open Scope N_scope.

(** ** Strings and bytes *)

Definition codepoint := N.
Definition pystr := list codepoint.
Definition bytes := list N.

(** An ASCII literal of the source, as a Python string. *)
Definition str (s : string) : pystr :=
  List.map N_of_ascii (list_ascii_of_string s).

(** The same, with every apostrophe standing for a quotation mark, to write
    JSON text legibly. *)
Definition dq (s : string) : pystr :=
  List.map (fun c => if c =? 39 then 34 else c) (str s).

Fixpoint pystr_eqb (a b : pystr) : bool :=
  match a, b with
  | [], [] => true
  | x :: a', y :: b' => (x =? y) && pystr_eqb a' b'
  | _, _ => false
  end.

(** [s.startswith(p)], returning what follows the prefix. *)
Fixpoint strip_prefix (p s : pystr) : option pystr :=
  match p, s with
  | [], _ => Some s
  | x :: p', y :: s' => if x =? y then strip_prefix p' s' else None
  | _ :: _, [] => None
  end.

(** ** Exceptions and results *)

(** What [read()] on a response gives: its body, or a failure of the
    connection while reading. *)
Inductive body_read : Type :=
| ReadOk (b : bytes)
| ReadFail.

(** The exceptions the program can meet. An [HTTPError] carries the status
    code, the reason phrase and the body of the response it stands for. *)
Inductive exn : Type :=
| UnicodeEncodeError
| UnicodeDecodeError
| JSONDecodeError
| ValueError
| RecursionError
| AttributeError
| KeyError
| HTTPError (code : N) (reason : bytes) (body : body_read)
| URLError
| IncompleteRead
| OSError
| SystemExit (code : N).

(** [isinstance(e, Exception)]: everything above except [SystemExit], which
    derives from [BaseException] only. *)
Definition is_Exception (e : exn) : bool :=
  match e with
  | SystemExit _ => false
  | _ => true
  end.

Inductive result (A : Type) : Type :=
| ok (a : A)
| raise (e : exn).
Arguments ok {A} a.
Arguments raise {A} e.

Definition rbind {A B} (r : result A) (k : A -> result B) : result B :=
  match r with
  | ok a => k a
  | raise e => raise e
  end.

(** ** UTF-8 *)

Module Utf8.

Definition is_surrogate (c : N) : bool := (0xD800 <=? c) && (c <=? 0xDFFF).

(** One code point under the strict [utf-8] codec. *)
Definition encode_char (c : N) : option bytes :=
  if c <? 0x80 then Some [c]
  else if c <? 0x800 then Some [0xC0 + c / 0x40; 0x80 + c mod 0x40]
  else if is_surrogate c then None
  else if c <? 0x10000 then
    Some [0xE0 + c / 0x1000; 0x80 + (c / 0x40) mod 0x40; 0x80 + c mod 0x40]
  else if c <? 0x110000 then
    Some [0xF0 + c / 0x40000; 0x80 + (c / 0x1000) mod 0x40;
          0x80 + (c / 0x40) mod 0x40; 0x80 + c mod 0x40]
  else None.

(** [s.encode('utf-8')]: raises [UnicodeEncodeError] on a lone surrogate. *)
Fixpoint encode (s : pystr) : result bytes :=
  match s with
  | [] => ok []
  | c :: r =>
      match encode_char c with
      | None => raise UnicodeEncodeError
      | Some bs => rbind (encode r) (fun t => ok (bs ++ t))
      end
  end.

Definition is_cont (b : N) : bool := (0x80 <=? b) && (b <=? 0xBF).

(** A code point assembled from a multi-byte sequence is accepted when it is
    not an overlong form, not a surrogate and inside Unicode. *)
Definition accept (lo c : N) : bool :=
  (lo <=? c) && negb (is_surrogate c) && (c <? 0x110000).

(** [b.decode('utf-8')]: raises [UnicodeDecodeError] on any ill-formed
    sequence. *)
Fixpoint decode (b : bytes) : result pystr :=
  match b with
  | [] => ok []
  | b0 :: r0 =>
      if b0 <? 0x80 then rbind (decode r0) (fun t => ok (b0 :: t))
      else if b0 <? 0xC0 then raise UnicodeDecodeError
      else if b0 <? 0xE0 then
        match r0 with
        | b1 :: r1 =>
            let c := (b0 - 0xC0) * 0x40 + (b1 - 0x80) in
            if is_cont b1 && accept 0x80 c
            then rbind (decode r1) (fun t => ok (c :: t))
            else raise UnicodeDecodeError
        | _ => raise UnicodeDecodeError
        end
      else if b0 <? 0xF0 then
        match r0 with
        | b1 :: b2 :: r2 =>
            let c := (b0 - 0xE0) * 0x1000 + (b1 - 0x80) * 0x40 + (b2 - 0x80) in
            if is_cont b1 && is_cont b2 && accept 0x800 c
            then rbind (decode r2) (fun t => ok (c :: t))
            else raise UnicodeDecodeError
        | _ => raise UnicodeDecodeError
        end
      else if b0 <? 0xF8 then
        match r0 with
        | b1 :: b2 :: b3 :: r3 =>
            let c := (b0 - 0xF0) * 0x40000 + (b1 - 0x80) * 0x1000
                     + (b2 - 0x80) * 0x40 + (b3 - 0x80) in
            if is_cont b1 && is_cont b2 && is_cont b3 && accept 0x10000 c
            then rbind (decode r3) (fun t => ok (c :: t))
            else raise UnicodeDecodeError
        | _ => raise UnicodeDecodeError
        end
      else raise UnicodeDecodeError
  end.

End Utf8.

(** ** SHA-256 (FIPS 180-4), the function behind [hashlib.sha256] *)

Module Sha256.

Definition mask32 : N := 0xFFFFFFFF.
Definition add32 (x y : N) : N := N.land (x + y) mask32.
Definition rotr (n x : N) : N :=
  N.lor (N.shiftr x n) (N.land (N.shiftl x (32 - n)) mask32).
Definition not32 (x : N) : N := N.lxor x mask32.

Definition ch (x y z : N) : N := N.lxor (N.land x y) (N.land (not32 x) z).
Definition maj (x y z : N) : N :=
  N.lxor (N.lxor (N.land x y) (N.land x z)) (N.land y z).
Definition bsig0 (x : N) : N := N.lxor (N.lxor (rotr 2 x) (rotr 13 x)) (rotr 22 x).
Definition bsig1 (x : N) : N := N.lxor (N.lxor (rotr 6 x) (rotr 11 x)) (rotr 25 x).
Definition ssig0 (x : N) : N := N.lxor (N.lxor (rotr 7 x) (rotr 18 x)) (N.shiftr x 3).
Definition ssig1 (x : N) : N := N.lxor (N.lxor (rotr 17 x) (rotr 19 x)) (N.shiftr x 10).

(** Round constants: the leading 32 fractional bits of the cube roots of the
    first 64 primes. *)
Definition round_constants : list N :=
  [0x428A2F98; 0x71374491; 0xB5C0FBCF; 0xE9B5DBA5;
   0x3956C25B; 0x59F111F1; 0x923F82A4; 0xAB1C5ED5;
   0xD807AA98; 0x12835B01; 0x243185BE; 0x550C7DC3;
   0x72BE5D74; 0x80DEB1FE; 0x9BDC06A7; 0xC19BF174;
   0xE49B69C1; 0xEFBE4786; 0x0FC19DC6; 0x240CA1CC;
   0x2DE92C6F; 0x4A7484AA; 0x5CB0A9DC; 0x76F988DA;
   0x983E5152; 0xA831C66D; 0xB00327C8; 0xBF597FC7;
   0xC6E00BF3; 0xD5A79147; 0x06CA6351; 0x14292967;
   0x27B70A85; 0x2E1B2138; 0x4D2C6DFC; 0x53380D13;
   0x650A7354; 0x766A0ABB; 0x81C2C92E; 0x92722C85;
   0xA2BFE8A1; 0xA81A664B; 0xC24B8B70; 0xC76C51A3;
   0xD192E819; 0xD6990624; 0xF40E3585; 0x106AA070;
   0x19A4C116; 0x1E376C08; 0x2748774C; 0x34B0BCB5;
   0x391C0CB3; 0x4ED8AA4A; 0x5B9CCA4F; 0x682E6FF3;
   0x748F82EE; 0x78A5636F; 0x84C87814; 0x8CC70208;
   0x90BEFFFA; 0xA4506CEB; 0xBEF9A3F7; 0xC67178F2].

(** The eight working variables, also the chaining value. *)
Record regs : Type := mk_regs {
  ra : N; rb : N; rc : N; rd : N; re : N; rf : N; rg : N; rh : N }.

Definition initial_hash : regs :=
  mk_regs 0x6A09E667 0xBB67AE85 0x3C6EF372 0xA54FF53A
          0x510E527F 0x9B05688C 0x1F83D9AB 0x5BE0CD19.

(** One round on the working variables, with constant [k] and schedule
    word [w]. *)
Definition round (r : regs) (k w : N) : regs :=
  let t1 := add32 (add32 (add32 (add32 (rh r) (bsig1 (re r)))
                                (ch (re r) (rf r) (rg r))) k) w in
  let t2 := add32 (bsig0 (ra r)) (maj (ra r) (rb r) (rc r)) in
  mk_regs (add32 t1 t2) (ra r) (rb r) (rc r) (add32 (rd r) t1) (re r) (rf r) (rg r).

(** The message schedule is kept as a window of sixteen words: its head is
    the word of the current round, and the word sixteen rounds ahead is
    appended. *)
Definition next_word (win : list N) : N :=
  add32 (add32 (add32 (ssig1 (nth 14 win 0)) (nth 9 win 0))
               (ssig0 (nth 1 win 0))) (nth 0 win 0).

Definition step (acc : regs * list N) (k : N) : regs * list N :=
  let '(r, win) := acc in
  (round r k (nth 0 win 0), tl win ++ [next_word win]).

Definition compress (h : regs) (block : list N) : regs :=
  let r := fst (fold_left step round_constants (h, block)) in
  mk_regs (add32 (ra h) (ra r)) (add32 (rb h) (rb r))
          (add32 (rc h) (rc r)) (add32 (rd h) (rd r))
          (add32 (re h) (re r)) (add32 (rf h) (rf r))
          (add32 (rg h) (rg r)) (add32 (rh h) (rh r)).

(** Big-endian bytes of a number, [n] of them. *)
Fixpoint be_bytes (n : nat) (x : N) : bytes :=
  match n with
  | O => []
  | S k => (x / 256 ^ N.of_nat k) mod 256 :: be_bytes k x
  end.

Fixpoint be_words (b : bytes) : list N :=
  match b with
  | b0 :: b1 :: b2 :: b3 :: r =>
      (((b0 * 256 + b1) * 256 + b2) * 256 + b3) :: be_words r
  | _ => []
  end.

(** Padding: a single 1 bit, zeros up to 56 modulo 64 bytes, then the length
    in bits on eight bytes. *)
Definition pad (m : bytes) : bytes :=
  let len := N.of_nat (List.length m) in
  let zeros := (64 - (len + 9) mod 64) mod 64 in
  m ++ 0x80 :: repeat 0 (N.to_nat zeros) ++ be_bytes 8 (8 * len).

Fixpoint hash_blocks (n : nat) (h : regs) (ws : list N) : regs :=
  match n with
  | O => h
  | S k => hash_blocks k (compress h (firstn 16 ws)) (skipn 16 ws)
  end.

Definition digest_of_regs (r : regs) : bytes :=
  be_bytes 4 (ra r) ++ be_bytes 4 (rb r) ++ be_bytes 4 (rc r) ++ be_bytes 4 (rd r)
  ++ be_bytes 4 (re r) ++ be_bytes 4 (rf r) ++ be_bytes 4 (rg r) ++ be_bytes 4 (rh r).

Definition sha256 (m : bytes) : bytes :=
  let ws := be_words (pad m) in
  digest_of_regs (hash_blocks (List.length ws / 16) initial_hash ws).

End Sha256.

(** ** Hexadecimal text *)

Definition hex_digit (d : N) : codepoint :=
  if d <? 10 then 48 + d else 87 + d.

(** [bytes.hex()]: two lowercase digits per byte. *)
Definition hexlify (b : bytes) : pystr :=
  flat_map (fun x => [hex_digit (x / 16); hex_digit (x mod 16)]) b.

Definition is_lower_hex (c : codepoint) : bool :=
  ((48 <=? c) && (c <=? 57)) || ((97 <=? c) && (c <=? 102)).

(** ** [hashlib] hash objects and the [hmac] module *)

Module Hashlib.

(** A [hashlib.sha256] object is determined by the bytes fed to it so far:
    its digest is the hash of their concatenation. *)
Record hash_object : Type := mk_hash { fed : bytes }.

Definition block_size : nat := 64.
Definition new (data : bytes) : hash_object := mk_hash data.
Definition update (h : hash_object) (data : bytes) : hash_object :=
  mk_hash (fed h ++ data).
Definition copy (h : hash_object) : hash_object := h.
Definition digest (h : hash_object) : bytes := Sha256.sha256 (fed h).
Definition hexdigest (h : hash_object) : pystr := hexlify (digest h).

End Hashlib.

Module Hmac.

Definition trans_5C : list N := List.map (fun x => N.lxor (N.of_nat x) 0x5C) (seq 0 256).
Definition trans_36 : list N := List.map (fun x => N.lxor (N.of_nat x) 0x36) (seq 0 256).

(** [bytes.translate(table)] and [bytes.ljust(width, b'\0')]. *)
Definition translate (b : bytes) (table : list N) : bytes :=
  List.map (fun x => nth (N.to_nat x) table 0) b.
Definition ljust (b : bytes) (width : nat) : bytes :=
  b ++ repeat 0 (width - List.length b).

Record HMAC : Type := mk_hmac {
  inner : Hashlib.hash_object;
  outer : Hashlib.hash_object }.

(** [hmac.new(key, msg, hashlib.sha256)], as the [hmac] module builds it. *)
Definition new (key msg : bytes) : HMAC :=
  let blocksize := Hashlib.block_size in
  let key := if (blocksize <? List.length key)%nat
             then Hashlib.digest (Hashlib.new key) else key in
  let key := ljust key blocksize in
  let outer := Hashlib.update (Hashlib.new []) (translate key trans_5C) in
  let inner := Hashlib.update (Hashlib.new []) (translate key trans_36) in
  mk_hmac (Hashlib.update inner msg) outer.

Definition digest (m : HMAC) : bytes :=
  let h := Hashlib.copy (outer m) in
  Hashlib.digest (Hashlib.update h (Hashlib.digest (inner m))).

Definition hexdigest (m : HMAC) : pystr := hexlify (digest m).

End Hmac.

(** The reference definition of HMAC (RFC 2104, section 2), written from
    its text: [H(K XOR opad, H(K XOR ipad, text))] with [K] brought to the
    block length [B]. It is what the refinement theorems compare the [hmac]
    module against. *)
Module Rfc2104.

Fixpoint xor_bytes (a b : bytes) : bytes :=
  match a, b with
  | x :: a', y :: b' => N.lxor x y :: xor_bytes a' b'
  | _, _ => []
  end.

Definition ipad (B : nat) : bytes := repeat 0x36 B.
Definition opad (B : nat) : bytes := repeat 0x5C B.

Definition block_key (H : bytes -> bytes) (B : nat) (K : bytes) : bytes :=
  let K' := if (B <? List.length K)%nat then H K else K in
  K' ++ repeat 0 (B - List.length K').

Definition hmac (H : bytes -> bytes) (B : nat) (K text : bytes) : bytes :=
  let K0 := block_key H B K in
  H (xor_bytes K0 (opad B) ++ H (xor_bytes K0 (ipad B) ++ text)).

Definition hmac_sha256 : bytes -> bytes -> bytes := hmac Sha256.sha256 64.

End Rfc2104.

(** ** Python values as [json.loads] produces them *)

(** A float is kept as the decimal numeral it was read from (sign, digits,
    power of ten); only its truth value is needed, which depends on whether
    the numeral rounds to zero in binary64. *)
Inductive pyfloat : Type :=
| FNaN
| FInf (negative : bool)
| FDec (negative : bool) (digits : N) (exp10 : Z).

Inductive pyval : Type :=
| PNone
| PBool (b : bool)
| PInt (z : Z)
| PFloat (f : pyfloat)
| PStr (s : pystr)
| PList (l : list pyval)
| PDict (d : list (pystr * pyval)).

(** A [dict] with string keys, in insertion order. *)
Definition dict := list (pystr * pyval).

Fixpoint dict_get (d : dict) (k : pystr) : option pyval :=
  match d with
  | [] => None
  | (k', v) :: r => if pystr_eqb k' k then Some v else dict_get r k
  end.

(** [d[k] = v]: an existing key keeps its position. *)
Fixpoint dict_set (d : dict) (k : pystr) (v : pyval) : dict :=
  match d with
  | [] => [(k, v)]
  | (k', v') :: r =>
      if pystr_eqb k' k then (k', v) :: r else (k', v') :: dict_set r k v
  end.

(** A decimal numeral [digits * 10^exp10] rounds to zero (round half to
    even) exactly when it is at most [2^-1075], half the least subnormal. *)
Definition rounds_to_zero (digits : N) (exp10 : Z) : bool :=
  (digits =? 0) ||
  ((exp10 <? 0)%Z && (digits * 2 ^ 1075 <=? 10 ^ Z.to_N (- exp10))).

(** [bool(v)]. *)
Definition truthy (v : pyval) : bool :=
  match v with
  | PNone => false
  | PBool b => b
  | PInt z => negb (z =? 0)%Z
  | PFloat FNaN => true
  | PFloat (FInf _) => true
  | PFloat (FDec _ m e) => negb (rounds_to_zero m e)
  | PStr s => match s with [] => false | _ => true end
  | PList l => match l with [] => false | _ => true end
  | PDict d => match d with [] => false | _ => true end
  end.

(** ** [json.dumps] *)

Module JsonEncoder.

(** The replacement of one character ([ESCAPE_DCT], [ensure_ascii=False]):
    quotation mark, backslash and the control characters are escaped,
    everything else is copied. *)
Definition escape_char (c : codepoint) : pystr :=
  if c =? 34 then [92; 34]
  else if c =? 92 then [92; 92]
  else if c =? 10 then [92; 110]
  else if c =? 13 then [92; 114]
  else if c =? 9 then [92; 116]
  else if c =? 8 then [92; 98]
  else if c =? 12 then [92; 102]
  else if c <? 0x20 then [92; 117; 48; 48; hex_digit (c / 16); hex_digit (c mod 16)]
  else [c].

Definition encode_basestring (s : pystr) : pystr :=
  34 :: flat_map escape_char s ++ [34].

Fixpoint encode_items (item_separator key_separator : pystr) (first : bool)
         (d : list (pystr * pystr)) : pystr :=
  match d with
  | [] => []
  | (k, v) :: r =>
      (if first then [] else item_separator)
      ++ encode_basestring k ++ key_separator ++ encode_basestring v
      ++ encode_items item_separator key_separator false r
  end.

(** [json.dumps(d, separators=(item_separator, key_separator),
    ensure_ascii=False)] for a [dict] [d] whose values are strings. *)
Definition dumps (d : list (pystr * pystr)) (item_separator key_separator : pystr)
  : pystr :=
  match d with
  | [] => str "{}"
  | _ => 123 :: encode_items item_separator key_separator true d ++ [125]
  end.

End JsonEncoder.

(** ** [json.loads]

    The decoder of CPython's [_json] accelerator, which [json.loads] uses by
    default, in strict mode and without hooks. Every way of rejecting a
    text raises [JSONDecodeError], except an over-long integer literal. *)

Module JsonDecoder.

Definition is_ws (c : codepoint) : bool :=
  (c =? 32) || (c =? 9) || (c =? 10) || (c =? 13).

Fixpoint skip_ws (s : pystr) : pystr :=
  match s with
  | c :: r => if is_ws c then skip_ws r else s
  | [] => []
  end.

Definition is_digit (c : codepoint) : bool := (48 <=? c) && (c <=? 57).

Definition hex_value (c : codepoint) : option N :=
  if (48 <=? c) && (c <=? 57) then Some (c - 48)
  else if (97 <=? c) && (c <=? 102) then Some (c - 87)
  else if (65 <=? c) && (c <=? 70) then Some (c - 55)
  else None.

Definition hex4 (a b c d : codepoint) : option N :=
  match hex_value a, hex_value b, hex_value c, hex_value d with
  | Some x, Some y, Some z, Some t => Some (((x * 16 + y) * 16 + z) * 16 + t)
  | _, _, _, _ => None
  end.

Definition is_high_surrogate (c : N) : bool := (0xD800 <=? c) && (c <=? 0xDBFF).
Definition is_low_surrogate (c : N) : bool := (0xDC00 <=? c) && (c <=? 0xDFFF).
Definition join_surrogates (hi lo : N) : N :=
  0x10000 + ((hi - 0xD800) * 0x400 + (lo - 0xDC00)).

(** The character a backslash escape other than [\u] stands for. *)
Definition simple_escape (e : codepoint) : option codepoint :=
  if (e =? 34) || (e =? 92) || (e =? 47) then Some e
  else if e =? 98 then Some 8
  else if e =? 102 then Some 12
  else if e =? 110 then Some 10
  else if e =? 114 then Some 13
  else if e =? 116 then Some 9
  else None.

(** [scanstring]: the text after an opening quotation mark, up to and
    including the closing one; [acc] holds the characters read, latest
    first. Returns the string and the rest of the text. *)
Fixpoint scanstring (s : pystr) (acc : pystr) : result (pystr * pystr) :=
  match s with
  | [] => raise JSONDecodeError
  | c :: r =>
      if c =? 34 then ok (rev acc, r)
      else if c =? 92 then
        match r with
        | [] => raise JSONDecodeError
        | e :: r1 =>
            if e =? 117 then
              match r1 with
              | h1 :: h2 :: h3 :: h4 :: r2 =>
                  match hex4 h1 h2 h3 h4 with
                  | None => raise JSONDecodeError
                  | Some u =>
                      if is_high_surrogate u then
                        match r2 with
                        | b :: e2 :: g1 :: g2 :: g3 :: g4 :: r3 =>
                            if (b =? 92) && (e2 =? 117) then
                              match hex4 g1 g2 g3 g4 with
                              | None => raise JSONDecodeError
                              | Some u2 =>
                                  if is_low_surrogate u2
                                  then scanstring r3 (join_surrogates u u2 :: acc)
                                  else scanstring r2 (u :: acc)
                              end
                            else scanstring r2 (u :: acc)
                        | _ => scanstring r2 (u :: acc)
                        end
                      else scanstring r2 (u :: acc)
                  end
              | _ => raise JSONDecodeError
              end
            else
              match simple_escape e with
              | Some x => scanstring r1 (x :: acc)
              | None => raise JSONDecodeError
              end
        end
      else if c <=? 0x1F then raise JSONDecodeError
      else scanstring r (c :: acc)
  end.

(** The longest run of decimal digits at the head of the text. *)
Fixpoint span_digits (s : pystr) : list N * pystr :=
  match s with
  | c :: r =>
      if is_digit c
      then let '(ds, rest) := span_digits r in (c - 48 :: ds, rest)
      else ([], s)
  | [] => ([], [])
  end.

Definition number_of_digits (ds : list N) : N :=
  fold_left (fun a d => 10 * a + d) ds 0.

(** [sys.int_info.default_max_str_digits]: [int] refuses longer literals
    with a [ValueError], which is an [Exception] like the others. *)
Definition int_max_str_digits : nat := 4300.

(** The integer part of a number: [0], or a non-zero digit and digits. *)
Definition int_part (s : pystr) : option (list N * pystr) :=
  match s with
  | c :: r =>
      if c =? 48 then Some ([0], r)
      else if is_digit c then Some (span_digits s)
      else None
  | [] => None
  end.

(** An optional fraction: a point and at least one digit. *)
Definition frac_part (s : pystr) : option (list N * pystr) :=
  match s with
  | p :: c :: _ =>
      if (p =? 46) && is_digit c then Some (span_digits (tl s)) else None
  | _ => None
  end.

(** An optional exponent: [e] or [E], an optional sign, at least one digit. *)
Definition exp_part (s : pystr) : option (Z * pystr) :=
  match s with
  | e :: r =>
      if (e =? 101) || (e =? 69) then
        let '(neg, r') :=
          match r with
          | sg :: r1 => if sg =? 45 then (true, r1)
                        else if sg =? 43 then (false, r1) else (false, r)
          | [] => (false, r)
          end in
        match span_digits r' with
        | ([], _) => None
        | (ds, rest) =>
            let v := Z.of_N (number_of_digits ds) in
            Some ((if neg then - v else v)%Z, rest)
        end
      else None
  | [] => None
  end.

(** [_match_number]: an optional minus sign, the integer part, an optional
    fraction, an optional exponent; an [int] without fraction and exponent,
    a [float] otherwise. *)
Definition match_number (s : pystr) : result (pyval * pystr) :=
  let '(neg, s1) := match s with
                    | c :: r => if c =? 45 then (true, r) else (false, s)
                    | [] => (false, s)
                    end in
  match int_part s1 with
  | None => raise JSONDecodeError
  | Some (ids, s2) =>
      let '(fds, s3, has_frac) :=
        match frac_part s2 with
        | Some (fds, s3) => (fds, s3, true)
        | None => ([], s2, false)
        end in
      let '(ex, s4, has_exp) :=
        match exp_part s3 with
        | Some (ex, s4) => (ex, s4, true)
        | None => (0%Z, s3, false)
        end in
      if has_frac || has_exp then
        ok (PFloat (FDec neg (number_of_digits (ids ++ fds))
                         (ex - Z.of_nat (List.length fds))), s4)
      else if (int_max_str_digits <? List.length ids)%nat then raise ValueError
      else
        let v := Z.of_N (number_of_digits ids) in
        ok (PInt (if neg then - v else v)%Z, s4)
  end.

(** The named constants of [scan_once]. *)
Definition literals : list (pystr * pyval) :=
  [ (str "null", PNone); (str "true", PBool true); (str "false", PBool false);
    (str "NaN", PFloat FNaN); (str "Infinity", PFloat (FInf false));
    (str "-Infinity", PFloat (FInf true)) ].

Fixpoint match_literal (ls : list (pystr * pyval)) (s : pystr)
  : option (pyval * pystr) :=
  match ls with
  | [] => None
  | (name, v) :: ls' =>
      match strip_prefix name s with
      | Some rest => Some (v, rest)
      | None => match_literal ls' s
      end
  end.

(** [scan_once] with [_parse_object] and [_parse_array]. The three call each
    other; [fuel] bounds the number of nested calls and is consumed by every
    call. [raise RecursionError] marks its exhaustion, which the fuel
    [decode] gives excludes: the stack is taken to be as deep as the text
    needs. *)
Fixpoint scan_once (fuel : nat) (s : pystr) {struct fuel} : result (pyval * pystr) :=
  match fuel with
  | O => raise RecursionError
  | S f =>
      match s with
      | [] => raise JSONDecodeError
      | c :: r =>
          if c =? 34 then
            rbind (scanstring r []) (fun '(x, r') => ok (PStr x, r'))
          else if c =? 123 then
            match skip_ws r with
            | c1 :: r1 =>
                if c1 =? 125 then ok (PDict [], r1)
                else parse_members f (c1 :: r1) []
            | [] => raise JSONDecodeError
            end
          else if c =? 91 then
            match skip_ws r with
            | c1 :: r1 =>
                if c1 =? 93 then ok (PList [], r1)
                else parse_elements f (c1 :: r1) []
            | [] => raise JSONDecodeError
            end
          else
            match match_literal literals s with
            | Some res => ok res
            | None => match_number s
            end
      end
  end

(** The members of an object from a key on; [d] holds those read so far. *)
with parse_members (fuel : nat) (s : pystr) (d : dict) {struct fuel}
  : result (pyval * pystr) :=
  match fuel with
  | O => raise RecursionError
  | S f =>
      match s with
      | c :: r =>
          if c =? 34 then
            rbind (scanstring r []) (fun '(key, r1) =>
            match skip_ws r1 with
            | c2 :: r2 =>
                if c2 =? 58 then
                  rbind (scan_once f (skip_ws r2)) (fun '(v, r3) =>
                  let d' := dict_set d key v in
                  match skip_ws r3 with
                  | c3 :: r4 =>
                      if c3 =? 125 then ok (PDict d', r4)
                      else if c3 =? 44 then parse_members f (skip_ws r4) d'
                      else raise JSONDecodeError
                  | [] => raise JSONDecodeError
                  end)
                else raise JSONDecodeError
            | [] => raise JSONDecodeError
            end)
          else raise JSONDecodeError
      | [] => raise JSONDecodeError
      end
  end

(** The elements of an array from a value on; [l] holds those read so far,
    latest first. *)
with parse_elements (fuel : nat) (s : pystr) (l : list pyval) {struct fuel}
  : result (pyval * pystr) :=
  match fuel with
  | O => raise RecursionError
  | S f =>
      rbind (scan_once f s) (fun '(v, r1) =>
      match skip_ws r1 with
      | c :: r2 =>
          if c =? 93 then ok (PList (rev (v :: l)), r2)
          else if c =? 44 then parse_elements f (skip_ws r2) (v :: l)
          else raise JSONDecodeError
      | [] => raise JSONDecodeError
      end)
  end.

(** [JSONDecoder.decode]: white space, one value, white space, end. *)
Definition decode (s : pystr) : result pyval :=
  rbind (scan_once (S (2 * List.length s)) (skip_ws s)) (fun '(v, r) =>
  match skip_ws r with
  | [] => ok v
  | _ :: _ => raise JSONDecodeError
  end).

(** [json.loads(s)] for a [str]: a leading byte order mark is refused. *)
Definition loads (s : pystr) : result pyval :=
  match s with
  | c :: _ => if c =? 0xFEFF then raise JSONDecodeError else decode s
  | [] => decode s
  end.

End JsonDecoder.

(** ** [datetime] and [str.replace] *)

(** An aware [datetime] in UTC, as [datetime.now(timezone.utc)] returns. *)
Record datetime : Type := mk_datetime {
  year : N; month : N; day : N;
  hour : N; minute : N; second : N; microsecond : N }.

(** The ranges the [datetime] class enforces on its fields. *)
Definition valid_datetime (d : datetime) : Prop :=
  1 <= year d <= 9999 /\ 1 <= month d <= 12 /\ 1 <= day d <= 31 /\
  hour d < 24 /\ minute d < 60 /\ second d < 60 /\ microsecond d < 1000000.

(** Decimal digits of a number, least significant first. *)
Fixpoint dec_digits (fuel : nat) (n : N) : pystr :=
  match fuel with
  | O => []
  | S f => 48 + n mod 10 :: (if n / 10 =? 0 then [] else dec_digits f (n / 10))
  end.

(** [str(n)] for a natural number. *)
Definition decimal (n : N) : pystr :=
  rev (dec_digits (S (N.to_nat (N.log2 n))) n).

(** ['%0<width>d' % n]: zero-padded on the left to at least [width]. *)
Definition format_d (width : nat) (n : N) : pystr :=
  let ds := decimal n in
  repeat 48 (width - List.length ds) ++ ds.

(** The reading of a run of decimal digits, if it is one. *)
Definition read_decimal (s : pystr) : option N :=
  if forallb JsonDecoder.is_digit s
  then Some (fold_left (fun a c => 10 * a + (c - 48)) s 0)
  else None.

(** [d.isoformat(timespec='milliseconds')] for an aware UTC [datetime]:
    date, [T], time with the microseconds cut to milliseconds, and the
    offset [+00:00]. *)
Definition isoformat_milliseconds (d : datetime) : pystr :=
  format_d 4 (year d) ++ str "-" ++ format_d 2 (month d) ++ str "-"
  ++ format_d 2 (day d) ++ str "T"
  ++ format_d 2 (hour d) ++ str ":" ++ format_d 2 (minute d) ++ str ":"
  ++ format_d 2 (second d) ++ str "." ++ format_d 3 (microsecond d / 1000)
  ++ str "+00:00".

(** [s.replace(old, new)]: every occurrence of [old], left to right and
    without overlap. [skip] counts the characters of an occurrence still to
    be passed over. *)
Fixpoint replace_from (old new : pystr) (skip : nat) (s : pystr) : pystr :=
  match s with
  | [] => []
  | c :: r =>
      match skip with
      | S k => replace_from old new k r
      | O =>
          match strip_prefix old s with
          | Some _ => new ++ replace_from old new (List.length old - 1) r
          | None => c :: replace_from old new 0 r
          end
      end
  end.

Definition str_replace (s old new : pystr) : pystr :=
  match old with
  | [] => new ++ flat_map (fun c => c :: new) s
  | _ :: _ => replace_from old new 0 s
  end.

(** [old in s]. *)
Fixpoint contains (s old : pystr) : bool :=
  match strip_prefix old s with
  | Some _ => true
  | None => match s with [] => false | _ :: r => contains r old end
  end.

(** ** The outside world *)

(** What [urlopen] meets: a response with a success status, a response with
    any other status (raised as [HTTPError], carrying status, reason phrase
    and body), or no response at all. *)
Inductive net_outcome : Type :=
| Response (body : body_read)
| ErrorResponse (code : N) (reason : bytes) (body : body_read)
| TransportFailure.

Record request : Type := mk_request {
  req_url : pystr;
  req_data : bytes;
  req_headers : list (pystr * pystr) }.

(** A piece of a printed line: literal text, a value put through [str()],
    the reason phrase of a status line, a status code, or the message of an
    exception. *)
Inductive chunk : Type :=
| Text (s : pystr)
| Value (v : pyval)
| Reason (r : bytes)
| Code (n : N)
| Message (e : exn).

Record World : Type := mk_World {
  clock : nat -> datetime;          (* successive readings of the clock *)
  ticks : nat;                      (* readings taken so far *)
  environ : string -> option pystr; (* os.environ *)
  endpoint : request -> net_outcome;(* how the network answers a request *)
  writable : pystr -> bool;         (* whether open(path, 'a') succeeds *)
  requests : list request;          (* requests handed to urlopen *)
  stdout : list (list chunk);       (* what each print wrote to stdout *)
  files : list (pystr * list chunk) (* what each print appended to a file *)
}.

(** ** The monad of the program: world passing with exceptions *)

Definition M (A : Type) : Type := World -> result A * World.

Definition ret {A} (a : A) : M A := fun w => (ok a, w).
Definition throw {A} (e : exn) : M A := fun w => (raise e, w).
Definition bind {A B} (c : M A) (k : A -> M B) : M B :=
  fun w => match c w with
           | (ok a, w') => k a w'
           | (raise e, w') => (raise e, w')
           end.
Definition lift {A} (r : result A) : M A := fun w => (r, w).

(** [try: body except ...:]. The handler answers [None] for an exception no
    clause matches; an exception raised inside a clause is not handled by
    the other clauses of the statement. *)
Definition try_except {A} (body : M A) (handler : exn -> option (M A)) : M A :=
  fun w => match body w with
           | (ok a, w') => (ok a, w')
           | (raise e, w') =>
               match handler e with
               | Some h => h w'
               | None => (raise e, w')
               end
           end.

Declare Scope monad_scope.
Delimit Scope monad_scope with monad.
Notation "x <- c ;; k" := (bind c (fun x => k))
  (at level 61, c at next level, right associativity) : monad_scope.
Notation "c ;; k" := (bind c (fun _ => k))
  (at level 61, right associativity) : monad_scope.
Local Open Scope monad_scope.

(** *** Primitive operations *)

(** The changes the program makes to the world. *)
Definition ticked (w : World) : World :=
  mk_World (clock w) (S (ticks w)) (environ w) (endpoint w) (writable w)
           (requests w) (stdout w) (files w).

Definition printed (w : World) (line : list chunk) : World :=
  mk_World (clock w) (ticks w) (environ w) (endpoint w) (writable w)
           (requests w) (stdout w ++ [line]) (files w).

Definition appended (w : World) (path : pystr) (line : list chunk) : World :=
  mk_World (clock w) (ticks w) (environ w) (endpoint w) (writable w)
           (requests w) (stdout w) (files w ++ [(path, line)]).

Definition requested (w : World) (req : request) : World :=
  mk_World (clock w) (ticks w) (environ w) (endpoint w) (writable w)
           (requests w ++ [req]) (stdout w) (files w).

(** [datetime.datetime.now(datetime.timezone.utc)]. *)
Definition datetime_now_utc : M datetime :=
  fun w => (ok (clock w (ticks w)), ticked w).

Definition utf8_encodable (s : pystr) : bool :=
  match Utf8.encode s with ok _ => true | raise _ => false end.

(** A chunk can be written to a UTF-8 text stream unless it brings a lone
    surrogate: [str()] of a [str] is the string itself, of any other value
    an escaped representation. *)
Definition printable (c : chunk) : bool :=
  match c with
  | Text s => utf8_encodable s
  | Value (PStr s) => utf8_encodable s
  | _ => true
  end.

(** [print(...)] on standard output, a strict UTF-8 text stream. *)
Definition print (line : list chunk) : M unit :=
  fun w => if forallb printable line
           then (ok tt, printed w line)
           else (raise UnicodeEncodeError, w).

(** [os.environ.get(key)]. *)
Definition environ_get (key : string) : M (option pystr) :=
  fun w => (ok (environ w key), w).

(** [with open(path, 'a') as fh: print(line, file=fh)]. *)
Definition append_line (path : pystr) (line : list chunk) : M unit :=
  fun w => if writable w path
           then (ok tt, appended w path line)
           else (raise OSError, w).

(** [urllib.request.urlopen(req)]: the response of a success status, or
    [HTTPError] for another status, or [URLError]. *)
Definition urlopen (req : request) : M body_read :=
  fun w =>
    match endpoint w req with
    | Response body => (ok body, requested w req)
    | ErrorResponse code reason body =>
        (raise (HTTPError code reason body), requested w req)
    | TransportFailure => (raise URLError, requested w req)
    end.

(** [response.read()]. *)
Definition read (body : body_read) : M bytes :=
  match body with
  | ReadOk b => ret b
  | ReadFail => throw IncompleteRead
  end.

(** [sys.exit(code)]. *)
Definition sys_exit {A} (code : N) : M A := throw (SystemExit code).

(** [result.get(key)]: only a [dict] has the method. *)
Definition py_get (v : pyval) (key : pystr) : M pyval :=
  match v with
  | PDict d => ret (match dict_get d key with Some x => x | None => PNone end)
  | _ => throw AttributeError
  end.

(** [result[key]] on a value known to be a [dict]. *)
Definition py_getitem (v : pyval) (key : pystr) : M pyval :=
  match v with
  | PDict d => match dict_get d key with Some x => ret x | None => throw KeyError end
  | _ => throw AttributeError
  end.

(** ** The program *)

(** [create_payload], lines 17-33. *)
Definition create_payload
  (name email resume_link repository_link action_run_link : pystr) : M pystr :=
  now <- datetime_now_utc ;;
  let timestamp := str_replace (isoformat_milliseconds now) (str "+00:00") (str "Z") in
  let payload :=
    [ (str "action_run_link", action_run_link);
      (str "email", email);
      (str "name", name);
      (str "repository_link", repository_link);
      (str "resume_link", resume_link);
      (str "timestamp", timestamp) ] in
  ret (JsonEncoder.dumps payload (str ",") (str ":")).

(** [calculate_signature], lines 36-45. *)
Definition calculate_signature (payload secret : pystr) : M pystr :=
  payload_bytes <- lift (Utf8.encode payload) ;;
  secret_bytes <- lift (Utf8.encode secret) ;;
  let hmac_digest := Hmac.hexdigest (Hmac.new secret_bytes payload_bytes) in
  ret (str "sha256=" ++ hmac_digest).

Definition submission_url : pystr := str "https://b12.io/apply/submission".

(** The request of lines 53-55; [add_header] capitalizes the header names. *)
Definition submission_request (data : bytes) (signature : pystr) : request :=
  mk_request submission_url data
    [ (str "Content-type", str "application/json; charset=utf-8");
      (str "X-signature-256", signature) ].

(** The two [except] clauses of lines 70-76. *)
Definition submit_handlers (e : exn) : option (M pyval) :=
  match e with
  | HTTPError code reason body =>
      Some (print [Text (str "HTTP Error "); Code code; Text (str ": "); Reason reason] ;;
            raw <- read body ;;
            text <- lift (Utf8.decode raw) ;;
            print [Text text] ;;
            ret PNone)
  | _ =>
      if is_Exception e
      then Some (print [Text (str "Error submitting application: "); Message e] ;;
                 ret PNone)
      else None
  end.

(** The body of the [try] statement, lines 58-68. *)
Definition submit_attempt (req : request) : M pyval :=
  response <- urlopen req ;;
  raw <- read response ;;
  response_data <- lift (Utf8.decode raw) ;;
  result <- lift (JsonDecoder.loads response_data) ;;
  success <- py_get result (str "success") ;;
  if truthy success then
    receipt <- py_getitem result (str "receipt") ;;
    print [Text (str "Submission successful! Receipt: "); Value receipt] ;;
    ret receipt
  else
    print [Text (str "Submission failed: "); Text response_data] ;;
    ret PNone.

(** [submit_application], lines 48-76. *)
Definition submit_application (payload signature : pystr) : M pyval :=
  data <- lift (Utf8.encode payload) ;;
  let req := submission_request data signature in
  try_except (submit_attempt req) submit_handlers.

Definition placeholder_run_link : pystr :=
  str "https://github.com/ioanzicu/b12-application/actions/runs/placeholder".

Definition signing_secret : pystr := str "hello-there-from-b12".

(** The run link [main] submits, and the payload it builds in a world. *)
Definition run_link (w : World) : pystr :=
  match environ w "GITHUB_RUN_URL" with
  | Some u => u
  | None => placeholder_run_link
  end.

Definition applicant_name : pystr := str "Ioan Zicu".
Definition applicant_email : pystr := str "ioan.zicu94+b12@gmail.com".
Definition applicant_resume : pystr :=
  str "https://www.linkedin.com/in/%E2%98%80-ioan-z-29109b161/".
Definition applicant_repository : pystr := str "https://github.com/ioanzicu".

(** Lines 80-108 of [main]: the payload and its signature. *)
Definition main_prepare : M (pystr * pystr) :=
  run_url <- environ_get "GITHUB_RUN_URL" ;;
  let action_run_link :=
    match run_url with Some u => u | None => placeholder_run_link end in
  payload <- create_payload applicant_name applicant_email applicant_resume
                            applicant_repository action_run_link ;;
  print [Text (str "Created payload:")] ;;
  print [Text payload] ;;
  print [] ;;
  signature <- calculate_signature payload signing_secret ;;
  print [Text (str "Calculated signature: "); Text signature] ;;
  print [] ;;
  ret (payload, signature).

(** Lines 113-122 of [main]: what is done with the receipt. *)
Definition main_conclude (receipt : pyval) : M unit :=
  if truthy receipt then
    output <- environ_get "GITHUB_OUTPUT" ;;
    match output with
    | Some path => append_line path [Text (str "receipt="); Value receipt]
    | None => ret tt
    end ;;
    sys_exit 0
  else
    sys_exit 1.

(** [main], lines 79-122. *)
Definition main : M unit :=
  prepared <- main_prepare ;;
  receipt <- submit_application (fst prepared) (snd prepared) ;;
  main_conclude receipt.

(** The exit status of the interpreter running the script: the argument of
    [sys.exit], and 1 for any other exception reaching the top level. *)
Definition exit_code (r : result unit) : N :=
  match r with
  | ok _ => 0
  | raise (SystemExit n) => n
  | raise _ => 1
  end.

Definition run (w : World) : N * World :=
  let '(r, w') := main w in (exit_code r, w').

(** ** Vocabulary of the specification *)

(** The tokens of a JSON text, none skipped: a white-space character
    between tokens shows up as a [Space] token. *)
Module JsonTokens.

Inductive token : Type :=
| LBrace | RBrace | LBracket | RBracket | Colon | Comma
| StringLit (s : pystr)
| Space (c : codepoint)
| Other (c : codepoint).

Definition punctuation (c : codepoint) : token :=
  if c =? 123 then LBrace
  else if c =? 125 then RBrace
  else if c =? 91 then LBracket
  else if c =? 93 then RBracket
  else if c =? 58 then Colon
  else if c =? 44 then Comma
  else if JsonDecoder.is_ws c then Space c
  else Other c.

Fixpoint tokenize (fuel : nat) (s : pystr) : option (list token) :=
  match fuel with
  | O => None
  | S f =>
      match s with
      | [] => Some []
      | c :: r =>
          if c =? 34 then
            match JsonDecoder.scanstring r [] with
            | ok (x, r') => option_map (cons (StringLit x)) (tokenize f r')
            | raise _ => None
            end
          else option_map (cons (punctuation c)) (tokenize f r)
      end
  end.

Definition tokens (s : pystr) : option (list token) :=
  tokenize (S (List.length s)) s.

(** The tokens of the items of a dictionary written with one colon inside
    and one comma between them. *)
Fixpoint item_tokens (first : bool) (d : list (pystr * pystr)) : list token :=
  match d with
  | [] => []
  | (k, v) :: r =>
      (if first then [] else [Comma])
      ++ [StringLit k; Colon; StringLit v] ++ item_tokens false r
  end.

End JsonTokens.

(** The dictionary holding the items [d], entered in order after those of
    [acc]. *)
Definition loaded_items (d : list (pystr * pystr)) (acc : dict) : dict :=
  fold_left (fun a kv => dict_set a (fst kv) (PStr (snd kv))) d acc.

Definition is_bytes (b : bytes) : Prop := Forall (fun x => x < 256) b.

(** Code point order on strings, the order of [sorted()]. *)
Fixpoint pystr_ltb (a b : pystr) : bool :=
  match a, b with
  | [], [] => false
  | [], _ :: _ => true
  | _ :: _, [] => false
  | x :: a', y :: b' => (x <? y) || ((x =? y) && pystr_ltb a' b')
  end.

Fixpoint strictly_increasing (l : list pystr) : bool :=
  match l with
  | a :: ((b :: _) as r) => pystr_ltb a b && strictly_increasing r
  | _ => true
  end.

(** The text [YYYY-MM-DDTHH:MM:SS.mmmZ] of an instant: fixed-width runs of
    decimal digits that read back as the fields of [d], the milliseconds
    being the microseconds cut to three digits. *)
Definition field (width : nat) (value : N) (s : pystr) : Prop :=
  List.length s = width /\ read_decimal s = Some value.

(** A zero-padded number has its width and reads back as itself. *)
Definition field_ok (width : nat) (n : N) : bool :=
  (List.length (format_d width n) =? width)%nat
  && match read_decimal (format_d width n) with
     | Some m => m =? n
     | None => false
     end.

Definition no_plus (s : pystr) : Prop := Forall (fun c => c <> 43) s.

(** The timestamp [create_payload] embeds for a clock reading [d]. *)
Definition timestamp_of (d : datetime) : pystr :=
  str_replace (isoformat_milliseconds d) (str "+00:00") (str "Z").

Definition iso_milliseconds_z (d : datetime) (ts : pystr) : Prop :=
  exists y mo dd h mi s ms,
    ts = y ++ str "-" ++ mo ++ str "-" ++ dd ++ str "T"
         ++ h ++ str ":" ++ mi ++ str ":" ++ s ++ str "." ++ ms ++ str "Z"
    /\ field 4 (year d) y /\ field 2 (month d) mo /\ field 2 (day d) dd
    /\ field 2 (hour d) h /\ field 2 (minute d) mi /\ field 2 (second d) s
    /\ field 3 (microsecond d / 1000) ms.

(** The ways a submission ends without a receipt, as the specification
    lists them; a response with an error status is taken with a body that
    can be read and is UTF-8. *)
Inductive no_receipt : net_outcome -> Prop :=
| network_failure :
    no_receipt TransportFailure
| connection_lost :
    no_receipt (Response ReadFail)
| non_success_status code reason b text :
    Utf8.decode b = ok text ->
    no_receipt (ErrorResponse code reason (ReadOk b))
| success_flag_false b text d :
    Utf8.decode b = ok text ->
    JsonDecoder.loads text = ok (PDict d) ->
    truthy (match dict_get d (str "success") with Some v => v | None => PNone end) = false ->
    no_receipt (Response (ReadOk b))
| malformed_encoding b e :
    Utf8.decode b = raise e ->
    no_receipt (Response (ReadOk b))
| malformed_json b text e :
    Utf8.decode b = ok text ->
    JsonDecoder.loads text = raise e ->
    no_receipt (Response (ReadOk b))
| not_an_object b text v :
    Utf8.decode b = ok text ->
    JsonDecoder.loads text = ok v ->
    (forall d, v <> PDict d) ->
    no_receipt (Response (ReadOk b)).

(** What [submit_application] makes of a body received with a success
    status: the receipt, or [None]. *)
Definition receipt_of_body (b : bytes) : pyval :=
  match Utf8.decode b with
  | raise _ => PNone
  | ok text =>
      match JsonDecoder.loads text with
      | ok (PDict d) =>
          if truthy (match dict_get d (str "success") with
                     | Some v => v | None => PNone end)
          then match dict_get d (str "receipt") with
               | Some r => if printable (Value r) then r else PNone
               | None => PNone
               end
          else PNone
      | _ => PNone
      end
  end.

(** What [submit_application] makes of each outcome of the request. *)
Definition submission_result (o : net_outcome) : result pyval :=
  match o with
  | Response (ReadOk b) => ok (receipt_of_body b)
  | Response ReadFail => ok PNone
  | ErrorResponse _ _ (ReadOk b) =>
      match Utf8.decode b with
      | ok _ => ok PNone
      | raise e => raise e
      end
  | ErrorResponse _ _ ReadFail => raise IncompleteRead
  | TransportFailure => ok PNone
  end.

(** The exceptions of the decoder. *)
Definition decoder_error (e : exn) : Prop :=
  e = JSONDecodeError \/ e = ValueError \/ e = RecursionError.

(** The exceptions the second [except] clause takes. *)
Definition absorbed (e : exn) : Prop :=
  is_Exception e = true /\ forall c r b, e <> HTTPError c r b.

(** The parts of the world the program only reads. *)
Definition frame (w w' : World) : Prop :=
  clock w' = clock w /\ environ w' = environ w /\
  endpoint w' = endpoint w /\ writable w' = writable w.

(** A receipt is obtained: the run reaches [submit_application], which
    returns something other than [None]. *)
Definition receipt_obtained (w : World) : Prop :=
  exists payload signature w1 receipt w2,
    main_prepare w = (ok (payload, signature), w1)
    /\ submit_application payload signature w1 = (ok receipt, w2)
    /\ receipt <> PNone.

(** The text [create_payload] returns for given fields and timestamp. *)
Definition payload_of
  (name email resume_link repository_link action_run_link timestamp : pystr)
  : pystr :=
  JsonEncoder.dumps
    [ (str "action_run_link", action_run_link); (str "email", email);
      (str "name", name); (str "repository_link", repository_link);
      (str "resume_link", resume_link); (str "timestamp", timestamp) ]
    (str ",") (str ":").

(** The payload [main] builds in a world. *)
Definition main_payload (w : World) : pystr :=
  payload_of applicant_name applicant_email applicant_resume
             applicant_repository (run_link w)
             (timestamp_of (clock w (ticks w))).

(** The output line of [main] can be written: [GITHUB_OUTPUT] is unset or
    names a file that can be opened for appending. *)
Definition output_writable (w : World) : Prop :=
  forall path, environ w "GITHUB_OUTPUT" = Some path -> writable w path = true.

(** ** Sample worlds *)

(** A clock that advances by a second at each reading. *)
Definition sample_clock (n : nat) : datetime :=
  mk_datetime 2024 2 29 23 59 (N.of_nat (Nat.modulo n 60)) 987654.

Definition sample_world (env : string -> option pystr) (net : net_outcome)
           (can_write : bool) : World :=
  mk_World sample_clock 0 env (fun _ => net) (fun _ => can_write) [] [] [].

Definition no_environ : string -> option pystr := fun _ => None.

Definition output_to (path : pystr) : string -> option pystr :=
  fun key => if String.eqb key "GITHUB_OUTPUT" then Some path else None.

Definition body_R123 : bytes := dq "{'success':true,'receipt':'R123'}".

(** An endpoint that accepts the submission with an empty receipt. *)
Definition empty_receipt_world : World :=
  sample_world no_environ
    (Response (ReadOk (dq "{'success':true,'receipt':''}"))) true.

(** An endpoint that returns the receipt [R123], with [GITHUB_OUTPUT]
    naming a file that cannot be opened. *)
Definition unwritable_output_world : World :=
  sample_world (output_to (str "/nonexistent/receipt.txt"))
    (Response (ReadOk body_R123)) false.

(** A server error whose page is Latin-1 text, not UTF-8. *)
Definition latin1_error_world : World :=
  sample_world no_environ
    (ErrorResponse 500 (str "Internal Server Error")
                   (ReadOk [0xE9; 99; 104; 101; 99])) true.

(** An endpoint that answers with a server error and a readable page. *)
Definition server_error_world : World :=
  sample_world no_environ
    (ErrorResponse 500 (str "Internal Server Error") (ReadOk (str "oops"))) true.

(** An endpoint that accepts the submission and sends no receipt. *)
Definition missing_receipt_world : World :=
  sample_world no_environ (Response (ReadOk (dq "{'success':true}"))) true.

(** An endpoint that returns the receipt [R123], the output file being
    writable. *)
Definition accepting_world : World :=
  sample_world (output_to (str "/tmp/github_output"))
    (Response (ReadOk body_R123)) true.

(** A code point that is half of a surrogate pair, alone. *)
Definition lone_surrogate : pystr := [0xD800].

(** ** Further vocabulary *)

(** A key and its value can both be encoded in UTF-8. *)
Definition pair_encodable (kv : pystr * pystr) : Prop :=
  utf8_encodable (fst kv) = true /\ utf8_encodable (snd kv) = true.

Definition ascii_text (s : pystr) : Prop := Forall (fun c => c < 0x80) s.

(** No character below the space: no line break, tab or NUL. *)
Definition no_control (s : pystr) : Prop := Forall (fun c => 0x20 <= c) s.

(** A computation leaves an observation of the world as it found it,
    whether it returns or raises. *)
Definition keeps {A B : Type} (obs : World -> B) (c : M A) : Prop :=
  forall w, obs (snd (c w)) = obs w.

(** The headers [submit_application] sends with a signature. *)
Definition submission_headers (signature : pystr) : list (pystr * pystr) :=
  [ (str "Content-type", str "application/json; charset=utf-8");
    (str "X-signature-256", signature) ].

(** The record [main] submits in a world, as [json.loads] reads it. *)
Definition main_record (w : World) : pyval :=
  PDict [ (str "action_run_link", PStr (run_link w));
          (str "email", PStr applicant_email);
          (str "name", PStr applicant_name);
          (str "repository_link", PStr applicant_repository);
          (str "resume_link", PStr applicant_resume);
          (str "timestamp", PStr (timestamp_of (clock w (ticks w)))) ].

(** The line [main] appends to the output file for a receipt. *)
Definition receipt_print (receipt : pyval) : list chunk :=
  [Text (str "receipt="); Value receipt].

(** The run link is given by the environment. *)
Definition run_url_is (link : pystr) : string -> option pystr :=
  fun key => if String.eqb key "GITHUB_RUN_URL" then Some link else None.

(** A run link read from bytes that were not UTF-8: the environment hands
    them over as lone surrogates. *)
Definition undecodable_link_world : World :=
  sample_world (run_url_is [0x68; 0xDCFF]) (Response (ReadOk body_R123)) true.

(** An endpoint whose success flag is the string [false] and whose receipt
    is a number. *)
Definition string_flag_world : World :=
  sample_world no_environ
    (Response (ReadOk (dq "{'success':'false','receipt':7}"))) true.

(** An error response whose body cannot be read to the end. *)
Definition broken_error_world : World :=
  sample_world no_environ
    (ErrorResponse 502 (str "Bad Gateway") ReadFail) true.

(** * Properties *)

(** ** The models on known inputs *)

Section KnownValues.

(** FIPS 180-4 examples. *)
Example sha256_abc :
  hexlify (Sha256.sha256 (str "abc"))
  = str "ba7816bf8f01cfea414140de5dae2223b00361a396177a9cb410ff61f20015ad".
Proof. vm_compute. reflexivity. Qed.

Example sha256_empty :
  hexlify (Sha256.sha256 [])
  = str "e3b0c44298fc1c149afbf4c8996fb92427ae41e4649b934ca495991b7852b855".
Proof. vm_compute. reflexivity. Qed.

Example sha256_two_blocks :
  hexlify (Sha256.sha256
             (str "abcdbcdecdefdefgefghfghighijhijkijkljklmklmnlmnomnopnopq"))
  = str "248d6a61d20638b8e5c026930c3e6039a33ce45964ff2167f6ecedd419db06c1".
Proof. vm_compute. reflexivity. Qed.

(** RFC 4231, test cases 2 and 6 (a key longer than a block), through the
    [hmac] module. *)
Example hmac_rfc4231_case_2 :
  Hmac.hexdigest (Hmac.new (str "Jefe") (str "what do ya want for nothing?"))
  = str "5bdcc146bf60754e6a042426089575c75a003f089d2739839dec58b964ec3843".
Proof. vm_compute. reflexivity. Qed.

Example hmac_rfc4231_case_6 :
  Hmac.hexdigest
    (Hmac.new (repeat 0xAA 131)
              (str "Test Using Larger Than Block-Size Key - Hash Key First"))
  = str "60e431591ee0b67f0d8a26aacbf5b77f8e0bc6213728c5140546040f0ee37f54".
Proof. vm_compute. reflexivity. Qed.

Example utf8_encode_sample :
  Utf8.encode [0x41; 0xE9; 0x20AC; 0x1F600]
  = ok [0x41; 0xC3; 0xA9; 0xE2; 0x82; 0xAC; 0xF0; 0x9F; 0x98; 0x80].
Proof. reflexivity. Qed.

Example utf8_decode_sample :
  Utf8.decode [0x41; 0xC3; 0xA9; 0xE2; 0x82; 0xAC; 0xF0; 0x9F; 0x98; 0x80]
  = ok [0x41; 0xE9; 0x20AC; 0x1F600].
Proof. reflexivity. Qed.

Example utf8_decode_overlong : Utf8.decode [0xC0; 0x80] = raise UnicodeDecodeError.
Proof. reflexivity. Qed.

Example utf8_decode_surrogate :
  Utf8.decode [0xED; 0xA0; 0x80] = raise UnicodeDecodeError.
Proof. reflexivity. Qed.

Example dumps_escapes :
  JsonEncoder.dumps [(str "k", [9; 34; 92; 1; 0x7F; 0xE9])] (str ",") (str ":")
  = dq "{'k':'\t\'\\\u0001" ++ [0x7F; 0xE9] ++ dq "'}".
Proof. reflexivity. Qed.

Example loads_receipt :
  JsonDecoder.loads (dq " { 'success' : true , 'receipt' : 'R123' } ")
  = ok (PDict [(str "success", PBool true); (str "receipt", PStr (str "R123"))]).
Proof. reflexivity. Qed.

Example loads_duplicate_key :
  JsonDecoder.loads (dq "{'a':1,'b':2,'a':3}")
  = ok (PDict [(str "a", PInt 3); (str "b", PInt 2)]).
Proof. reflexivity. Qed.

Example loads_surrogate_pair :
  JsonDecoder.loads (dq "'\ud83d\ude00\ud83d'") = ok (PStr [0x1F600; 0xD83D]).
Proof. reflexivity. Qed.

Example loads_trailing_comma :
  JsonDecoder.loads (dq "{'a':1,}") = raise JSONDecodeError.
Proof. reflexivity. Qed.

Example loads_nested :
  JsonDecoder.loads (dq "[[[[1]]], {'a': [null, -2.5e3]}]")
  = ok (PList [PList [PList [PList [PInt 1]]];
               PDict [(str "a", PList [PNone; PFloat (FDec true 25 2)])]]).
Proof. reflexivity. Qed.

(** Truth values of numbers: a numeral that underflows is false. *)
Example truthy_numbers :
  List.map (fun t => match JsonDecoder.loads (str t) with
                     | ok v => Some (truthy v)
                     | raise _ => None
                     end)
           ["1e-400"; "-0.0"; "NaN"; "0.1"; "0"; "-1"]%string
  = [Some false; Some false; Some true; Some true; Some false; Some true].
Proof. vm_compute. reflexivity. Qed.

Example timestamp_sample :
  timestamp_of (mk_datetime 2024 2 29 7 5 9 1999) = str "2024-02-29T07:05:09.001Z".
Proof. vm_compute. reflexivity. Qed.

Example timestamp_early_year :
  timestamp_of (mk_datetime 33 12 1 0 0 0 999999) = str "0033-12-01T00:00:00.999Z".
Proof. vm_compute. reflexivity. Qed.

Example replace_all_occurrences :
  str_replace (str "a+00:00b+00:00+00:0") (str "+00:00") (str "Z") = str "aZbZ+00:0".
Proof. reflexivity. Qed.

Example create_payload_sample :
  fst (create_payload (str "n") (str "e") (str "r") (str "p") (str "a") accepting_world)
  = ok (dq "{'action_run_link':'a','email':'e','name':'n','repository_link':'p','resume_link':'r','timestamp':'2024-02-29T23:59:00.987Z'}").
Proof. vm_compute. reflexivity. Qed.

Example run_accepting_world :
  fst (run accepting_world) = 0
  /\ files (snd (run accepting_world))
     = [(str "/tmp/github_output", [Text (str "receipt="); Value (PStr (str "R123"))])].
Proof. split; vm_compute; reflexivity. Qed.

End KnownValues.

(** ** Reading back what the encoder wrote *)

Section ScanString.

Import JsonDecoder JsonEncoder.

Lemma scanstring_plain c r acc :
  c <> 34 -> c <> 92 -> 0x1F < c ->
  scanstring (c :: r) acc = scanstring r (c :: acc).
Proof.
  intros H1 H2 H3. cbn [scanstring].
  apply N.eqb_neq in H1, H2. rewrite H1, H2.
  assert (E : (c <=? 0x1F) = false) by (apply N.leb_gt; exact H3).
  rewrite E. reflexivity.
Qed.

Lemma scanstring_escape e x r acc :
  simple_escape e = Some x -> e <> 117 ->
  scanstring (92 :: e :: r) acc = scanstring r (x :: acc).
Proof.
  intros Hx He. cbn [scanstring].
  change (92 =? 34) with false. change (92 =? 92) with true. cbn iota.
  apply N.eqb_neq in He. rewrite He, Hx. reflexivity.
Qed.

Lemma scanstring_u h1 h2 h3 h4 u r acc :
  hex4 h1 h2 h3 h4 = Some u -> is_high_surrogate u = false ->
  scanstring (92 :: 117 :: h1 :: h2 :: h3 :: h4 :: r) acc = scanstring r (u :: acc).
Proof.
  intros Hu Hs. cbn [scanstring].
  change (92 =? 34) with false. change (92 =? 92) with true.
  change (117 =? 117) with true. cbn iota.
  rewrite Hu, Hs. reflexivity.
Qed.

Lemma hex_value_hex_digit d : d < 16 -> hex_value (hex_digit d) = Some d.
Proof.
  intros Hd. unfold hex_digit, hex_value.
  destruct (N.ltb_spec d 10) as [H | H].
  - replace ((48 <=? 48 + d) && (48 + d <=? 57)) with true.
    + f_equal. lia.
    + symmetry. apply andb_true_intro. split; apply N.leb_le; lia.
  - replace ((48 <=? 87 + d) && (87 + d <=? 57)) with false.
    + replace ((97 <=? 87 + d) && (87 + d <=? 102)) with true.
      * f_equal. lia.
      * symmetry. apply andb_true_intro. split; apply N.leb_le; lia.
    + symmetry. apply andb_false_intro2. apply N.leb_gt. lia.
Qed.

Lemma hex4_control c :
  c < 0x20 -> hex4 48 48 (hex_digit (c / 16)) (hex_digit (c mod 16)) = Some c.
Proof.
  intros Hc. unfold hex4.
  change (hex_value 48) with (Some 0).
  assert (Hq : c / 16 < 16) by (apply N.Div0.div_lt_upper_bound; lia).
  assert (Hr : c mod 16 < 16) by (apply N.mod_lt; lia).
  rewrite (hex_value_hex_digit _ Hq), (hex_value_hex_digit _ Hr).
  f_equal. pose proof (N.div_mod c 16 ltac:(lia)). lia.
Qed.

(** The scanner undoes [escape_char], one character at a time. *)
Lemma scanstring_escape_char c r acc :
  scanstring (escape_char c ++ r) acc = scanstring r (c :: acc).
Proof.
  unfold escape_char.
  destruct (N.eqb_spec c 34) as [-> | H34]; [reflexivity |].
  destruct (N.eqb_spec c 92) as [-> | H92]; [reflexivity |].
  destruct (N.eqb_spec c 10) as [-> | H10]; [reflexivity |].
  destruct (N.eqb_spec c 13) as [-> | H13]; [reflexivity |].
  destruct (N.eqb_spec c 9) as [-> | H9]; [reflexivity |].
  destruct (N.eqb_spec c 8) as [-> | H8]; [reflexivity |].
  destruct (N.eqb_spec c 12) as [-> | H12]; [reflexivity |].
  destruct (N.ltb_spec c 0x20) as [Hlt | Hge].
  - cbn [app]. apply scanstring_u.
    + apply hex4_control. exact Hlt.
    + unfold is_high_surrogate. apply andb_false_intro1. apply N.leb_gt. lia.
  - cbn [app]. apply scanstring_plain; lia.
Qed.

Lemma scanstring_body s r acc :
  scanstring (flat_map escape_char s ++ 34 :: r) acc = ok (rev acc ++ s, r).
Proof.
  revert acc. induction s as [| c s IH]; intros acc.
  - cbn. rewrite app_nil_r. reflexivity.
  - cbn [flat_map]. rewrite <- app_assoc, scanstring_escape_char, IH.
    cbn [rev]. rewrite <- app_assoc. reflexivity.
Qed.

(** A string written by [encode_basestring] is read back by [scanstring]
    as it was, whatever follows it. *)
Lemma scanstring_encode_basestring s r :
  exists body, encode_basestring s ++ r = 34 :: body
               /\ scanstring body [] = ok (s, r).
Proof.
  exists (flat_map escape_char s ++ 34 :: r). split.
  - unfold encode_basestring. cbn [app]. rewrite <- app_assoc. reflexivity.
  - apply scanstring_body.
Qed.

End ScanString.

Section Consumption.

Import JsonDecoder.

(** [scanstring] consumes at least the closing quotation mark. *)
Lemma scanstring_shorter n : forall s acc x r,
  (List.length s <= n)%nat ->
  scanstring s acc = ok (x, r) -> (List.length r < List.length s)%nat.
Proof.
  induction n as [| n IH]; intros s acc x r Hn H.
  - destruct s; [discriminate H | cbn in Hn; lia].
  - destruct s as [| c s]; [discriminate H |].
    cbn [scanstring] in H. cbn [List.length] in *.
    destruct (c =? 34).
    { injection H as _ <-. lia. }
    destruct (c =? 92).
    2:{ destruct (c <=? 0x1F); [discriminate H |].
        apply IH in H; lia. }
    destruct s as [| e r1]; [discriminate H |]. cbn [List.length] in *.
    destruct (e =? 117).
    2:{ destruct (simple_escape e); [| discriminate H].
        apply IH in H; lia. }
    destruct r1 as [| h1 [| h2 [| h3 [| h4 r2]]]]; try discriminate H.
    cbn [List.length] in *.
    destruct (hex4 h1 h2 h3 h4) as [u |]; [| discriminate H].
    assert (Hr2 : forall a, scanstring r2 a = ok (x, r) ->
                            (List.length r < List.length r2)%nat)
      by (intros a Ha; apply IH in Ha; lia).
    destruct (is_high_surrogate u); [| apply Hr2 in H; lia].
    destruct r2 as [| b [| e2 [| g1 [| g2 [| g3 [| g4 r3]]]]]];
      try (apply Hr2 in H; cbn [List.length] in *; lia).
    destruct ((b =? 92) && (e2 =? 117)); [| apply Hr2 in H; lia].
    destruct (hex4 g1 g2 g3 g4) as [u2 |]; [| discriminate H].
    destruct (is_low_surrogate u2); [| apply Hr2 in H; lia].
    apply IH in H; cbn [List.length] in *; lia.
Qed.

Lemma scanstring_consumes s acc x r :
  scanstring s acc = ok (x, r) -> (List.length r < List.length s)%nat.
Proof. apply (scanstring_shorter (List.length s)). lia. Qed.

Lemma skip_ws_length s : (List.length (skip_ws s) <= List.length s)%nat.
Proof.
  induction s as [| c s IH]; cbn; [lia |].
  destruct (is_ws c); cbn; lia.
Qed.

End Consumption.

Section Tokens.

Import JsonDecoder JsonEncoder JsonTokens.

Lemma tokenize_more f : forall s ts f',
  tokenize f s = Some ts -> (f <= f')%nat -> tokenize f' s = Some ts.
Proof.
  induction f as [| f IH]; intros s ts f' H Hle; [discriminate H |].
  destruct f' as [| f']; [lia |].
  cbn [tokenize] in *. destruct s as [| c r]; [exact H |].
  destruct (c =? 34).
  - destruct (scanstring r []) as [[x r'] | e]; [| discriminate H].
    destruct (tokenize f r') as [t |] eqn:E; [| discriminate H].
    rewrite (IH _ _ f' E); [exact H | lia].
  - destruct (tokenize f r) as [t |] eqn:E; [| discriminate H].
    rewrite (IH _ _ f' E); [exact H | lia].
Qed.

(** Fuel beyond the length of the text changes nothing. *)
Lemma tokenize_enough n : forall s f f',
  (List.length s <= n)%nat ->
  (List.length s < f)%nat -> (List.length s < f')%nat ->
  tokenize f s = tokenize f' s.
Proof.
  induction n as [| n IH]; intros s f f' Hn Hf Hf';
    (destruct f as [| f]; [lia |]); (destruct f' as [| f']; [lia |]);
    cbn [tokenize]; (destruct s as [| c r]; [reflexivity |]);
    cbn [List.length] in *; [lia |].
  destruct (c =? 34).
  - destruct (scanstring r []) as [[x r'] | e] eqn:E; [| reflexivity].
    apply scanstring_consumes in E.
    rewrite (IH r' f f'); [reflexivity | lia ..].
  - rewrite (IH r f f'); [reflexivity | lia ..].
Qed.

Lemma tokens_of_fuel f s ts : tokenize f s = Some ts -> tokens s = Some ts.
Proof.
  intros H. unfold tokens.
  rewrite (tokenize_enough (List.length s) s _ (Nat.max f (S (List.length s))));
    [| lia ..].
  apply (tokenize_more f); [exact H | lia].
Qed.

Lemma tokenize_string f s r ts :
  tokenize f r = Some ts ->
  tokenize (S f) (encode_basestring s ++ r) = Some (StringLit s :: ts).
Proof.
  intros H. destruct (scanstring_encode_basestring s r) as [body [-> Hb]].
  cbn [tokenize]. change (34 =? 34) with true. cbn iota.
  rewrite Hb, H. reflexivity.
Qed.

Lemma tokenize_punct f c r ts :
  c <> 34 -> tokenize f r = Some ts ->
  tokenize (S f) (c :: r) = Some (punctuation c :: ts).
Proof.
  intros Hc H. cbn [tokenize]. apply N.eqb_neq in Hc. rewrite Hc, H. reflexivity.
Qed.

Lemma tokenize_items d : forall first f r ts,
  tokenize f r = Some ts ->
  exists f', tokenize f' (encode_items (str ",") (str ":") first d ++ r)
             = Some (item_tokens first d ++ ts).
Proof.
  induction d as [| [k v] d IH]; intros first f r ts H.
  - exists f. exact H.
  - destruct (IH false f r ts H) as [f1 H1].
    cbn [encode_items item_tokens]. rewrite <- !app_assoc.
    pose proof (tokenize_string _ v _ _ H1) as H2.
    pose proof (tokenize_punct _ 58 _ _ ltac:(discriminate) H2) as H3.
    pose proof (tokenize_string _ k _ _ H3) as H4.
    destruct first.
    + exists (S (S (S f1))). exact H4.
    + pose proof (tokenize_punct _ 44 _ _ ltac:(discriminate) H4) as H5.
      exists (S (S (S (S f1)))). exact H5.
Qed.

(** [dumps] with the compact separators writes a brace, the items with one
    colon inside and one comma between them, and a brace: nothing else. *)
Lemma tokens_dumps d :
  d <> [] ->
  tokens (dumps d (str ",") (str ":")) = Some (LBrace :: item_tokens true d ++ [RBrace]).
Proof.
  intros Hd. destruct d as [| p d]; [contradiction |].
  unfold dumps.
  assert (H0 : tokenize 2 [125] = Some [RBrace]) by reflexivity.
  destruct (tokenize_items (p :: d) true _ _ _ H0) as [f Hf].
  apply (tokens_of_fuel (S f)).
  apply (tokenize_punct f 123); [discriminate | exact Hf].
Qed.

End Tokens.

Section Parser.

Import JsonDecoder JsonEncoder.

(** More fuel never changes a result that was reached. *)
Lemma parser_more f :
  (forall s res f', scan_once f s = ok res -> (f <= f')%nat ->
                    scan_once f' s = ok res)
  /\ (forall s d res f', parse_members f s d = ok res -> (f <= f')%nat ->
                         parse_members f' s d = ok res)
  /\ (forall s l res f', parse_elements f s l = ok res -> (f <= f')%nat ->
                         parse_elements f' s l = ok res).
Proof.
  induction f as [| f [IHs [IHm IHe]]].
  - repeat split; intros; discriminate.
  - repeat split.
    + intros s res f' H Hle. destruct f' as [| f']; [lia |].
      cbn [scan_once] in *. destruct s as [| c r]; [exact H |].
      destruct (c =? 34); [exact H |].
      destruct (c =? 123).
      { destruct (skip_ws r) as [| c1 r1]; [exact H |].
        destruct (c1 =? 125); [exact H |].
        apply IHm; [exact H | lia]. }
      destruct (c =? 91); [| exact H].
      destruct (skip_ws r) as [| c1 r1]; [exact H |].
      destruct (c1 =? 93); [exact H |].
      apply IHe; [exact H | lia].
    + intros s d res f' H Hle. destruct f' as [| f']; [lia |].
      cbn [parse_members] in *. destruct s as [| c r]; [exact H |].
      destruct (c =? 34); [| exact H].
      destruct (scanstring r []) as [[key r1] | e]; [| exact H].
      cbn [rbind] in *.
      destruct (skip_ws r1) as [| c2 r2]; [exact H |].
      destruct (c2 =? 58); [| exact H].
      destruct (scan_once f (skip_ws r2)) as [[v r3] | e] eqn:E; [| discriminate H].
      rewrite (IHs _ _ f' E) by lia. cbn [rbind] in *.
      destruct (skip_ws r3) as [| c3 r4]; [exact H |].
      destruct (c3 =? 125); [exact H |].
      destruct (c3 =? 44); [| exact H].
      apply IHm; [exact H | lia].
    + intros s l res f' H Hle. destruct f' as [| f']; [lia |].
      cbn [parse_elements] in *.
      destruct (scan_once f s) as [[v r1] | e] eqn:E; [| discriminate H].
      rewrite (IHs _ _ f' E) by lia. cbn [rbind] in *.
      destruct (skip_ws r1) as [| c r2]; [exact H |].
      destruct (c =? 93); [exact H |].
      destruct (c =? 44); [| exact H].
      apply IHe; [exact H | lia].
Qed.

Lemma scan_once_more f f' s res :
  scan_once f s = ok res -> (f <= f')%nat -> scan_once f' s = ok res.
Proof. apply parser_more. Qed.

Lemma scan_once_string f s r :
  scan_once (S f) (encode_basestring s ++ r) = ok (PStr s, r).
Proof.
  destruct (scanstring_encode_basestring s r) as [body [-> Hb]].
  cbn [scan_once]. change (34 =? 34) with true. cbn iota.
  rewrite Hb. reflexivity.
Qed.

Lemma skip_ws_quote s r : skip_ws (encode_basestring s ++ r) = encode_basestring s ++ r.
Proof. reflexivity. Qed.

Lemma encode_items_cons first k v d r :
  encode_items (str ",") (str ":") first ((k, v) :: d) ++ r
  = (if first then [] else [44]) ++ encode_basestring k ++ 58 ::
    encode_basestring v ++ encode_items (str ",") (str ":") false d ++ r.
Proof.
  cbn [encode_items]. rewrite <- !app_assoc. reflexivity.
Qed.

(** One member followed by a comma and the next key. *)
Lemma parse_members_next f k v r acc :
  parse_members (S (S f)) (encode_basestring k ++ 58 :: encode_basestring v ++ 44 :: 34 :: r) acc
  = parse_members (S f) (34 :: r) (dict_set acc k (PStr v)).
Proof.
  destruct (scanstring_encode_basestring k
              (58 :: encode_basestring v ++ 44 :: 34 :: r)) as [body [-> Hb]].
  cbn [parse_members]. change (34 =? 34) with true. cbn iota.
  rewrite Hb. cbn [rbind].
  change (skip_ws (58 :: ?x)) with (58 :: x).
  change (58 =? 58) with true. cbn iota.
  rewrite skip_ws_quote, scan_once_string. reflexivity.
Qed.

(** The last member, followed by the closing brace. *)
Lemma parse_members_last f k v r acc :
  parse_members (S (S f)) (encode_basestring k ++ 58 :: encode_basestring v ++ 125 :: r) acc
  = ok (PDict (dict_set acc k (PStr v)), r).
Proof.
  destruct (scanstring_encode_basestring k
              (58 :: encode_basestring v ++ 125 :: r)) as [body [-> Hb]].
  cbn [parse_members]. change (34 =? 34) with true. cbn iota.
  rewrite Hb. cbn [rbind].
  change (skip_ws (58 :: ?x)) with (58 :: x).
  change (58 =? 58) with true. cbn iota.
  rewrite skip_ws_quote, scan_once_string. reflexivity.
Qed.

Lemma parse_members_items d : forall k v acc f r,
  parse_members (S (S (List.length d + f)))
    (encode_items (str ",") (str ":") true ((k, v) :: d) ++ 125 :: r) acc
  = ok (PDict (loaded_items ((k, v) :: d) acc), r).
Proof.
  induction d as [| [k' v'] d IH]; intros k v acc f r.
  - rewrite encode_items_cons. cbn [encode_items app].
    apply parse_members_last.
  - rewrite encode_items_cons, encode_items_cons. cbn [app List.length Nat.add].
    unfold encode_basestring at 3. cbn [app].
    rewrite parse_members_next.
    specialize (IH k' v' (dict_set acc k (PStr v)) f r).
    rewrite encode_items_cons in IH. cbn [app] in IH.
    unfold encode_basestring at 1 in IH. cbn [app] in IH.
    exact IH.
Qed.

Lemma encode_items_length sep1 sep2 first d :
  (List.length d <= List.length (encode_items sep1 sep2 first d))%nat.
Proof.
  revert first. induction d as [| [k v] d IH]; intros first; cbn [encode_items List.length].
  - lia.
  - rewrite !length_app. specialize (IH false). unfold encode_basestring.
    cbn [List.length]. lia.
Qed.

(** [json.loads] reads back what [dumps] wrote with compact separators. *)
Lemma loads_dumps d :
  loads (dumps d (str ",") (str ":")) = ok (PDict (loaded_items d [])).
Proof.
  destruct d as [| [k v] d]; [reflexivity |].
  unfold dumps, loads, decode.
  change (123 =? 0xFEFF) with false. cbn iota.
  change (skip_ws (123 :: ?x)) with (123 :: x).
  set (text := 123 :: encode_items (str ",") (str ":") true ((k, v) :: d) ++ [125]).
  assert (H : scan_once (S (S (S (List.length d)))) text
              = ok (PDict (loaded_items ((k, v) :: d) []), [])).
  { subst text. cbn [scan_once]. change (123 =? 34) with false.
    change (123 =? 123) with true. cbn iota.
    pose proof (parse_members_items d k v [] 0 []) as P.
    rewrite Nat.add_0_r in P.
    rewrite encode_items_cons in *. cbn [app] in *.
    unfold encode_basestring at 1. unfold encode_basestring at 1 in P.
    cbn [app skip_ws] in *.
    change (is_ws 34) with false. cbn iota.
    change (34 =? 125) with false. cbn iota. exact P. }
  apply scan_once_more with (f' := S (2 * List.length text)) in H.
  - match goal with
    | |- rbind ?x _ = _ =>
        assert (E : x = ok (PDict (loaded_items ((k, v) :: d) []), @nil N)) by exact H;
        rewrite E
    end. reflexivity.
  - subst text. cbn [List.length]. rewrite length_app.
    pose proof (encode_items_length (str ",") (str ":") true ((k, v) :: d)) as L.
    cbn [List.length] in *. lia.
Qed.

End Parser.

Section Timestamp.

Import JsonDecoder.

Lemma field_ok_below width bound :
  forallb (field_ok width) (List.map N.of_nat (seq 0 bound)) = true ->
  forall n, n < N.of_nat bound -> field width n (format_d width n).
Proof.
  intros H n Hn. rewrite forallb_forall in H.
  assert (Hin : In n (List.map N.of_nat (seq 0 bound))).
  { replace n with (N.of_nat (N.to_nat n)) by apply N2Nat.id.
    apply in_map, in_seq. lia. }
  apply H in Hin. unfold field_ok in Hin.
  apply andb_prop in Hin. destruct Hin as [Hl Hr].
  split.
  - apply Nat.eqb_eq. exact Hl.
  - destruct (read_decimal (format_d width n)) as [m |]; [| discriminate Hr].
    apply N.eqb_eq in Hr. subst m. reflexivity.
Qed.

Lemma field_4 n : n < 10000 -> field 4 n (format_d 4 n).
Proof. apply (field_ok_below 4 10000). vm_compute. reflexivity. Qed.

Lemma field_3 n : n < 1000 -> field 3 n (format_d 3 n).
Proof. apply (field_ok_below 3 1000). vm_compute. reflexivity. Qed.

Lemma field_2 n : n < 100 -> field 2 n (format_d 2 n).
Proof. apply (field_ok_below 2 100). vm_compute. reflexivity. Qed.

Lemma field_no_plus width n s : field width n s -> no_plus s.
Proof.
  intros [_ H]. unfold read_decimal in H.
  destruct (forallb is_digit s) eqn:E; [| discriminate H].
  rewrite forallb_forall in E. apply Forall_forall. intros c Hc.
  apply E in Hc. unfold is_digit in Hc.
  apply andb_prop in Hc. destruct Hc as [Hc _]. apply N.leb_le in Hc. lia.
Qed.

Lemma no_plus_app a b : no_plus a -> no_plus b -> no_plus (a ++ b).
Proof. intros Ha Hb. apply Forall_app. split; assumption. Qed.

Lemma no_plus_sep c : c <> 43 -> no_plus [c].
Proof. intros H. constructor; [exact H | constructor]. Qed.

(** Replacing the offset at the end of a text that has no plus sign
    elsewhere. *)
Lemma replace_trailing_offset p :
  no_plus p ->
  str_replace (p ++ str "+00:00") (str "+00:00") (str "Z") = p ++ str "Z".
Proof.
  intros H. change (str_replace ?s (str "+00:00") ?n)
    with (replace_from (str "+00:00") n 0 s).
  induction H as [| c p Hc Hp IH]; [reflexivity |].
  cbn [app replace_from].
  change (strip_prefix (str "+00:00") (c :: ?x))
    with (if 43 =? c then strip_prefix (str "00:00") x else None).
  assert (E : (43 =? c) = false) by (apply N.eqb_neq; congruence).
  rewrite E, IH. reflexivity.
Qed.

Lemma contains_no_plus s old : no_plus s -> contains s (43 :: old) = false.
Proof.
  induction 1 as [| c s Hc Hs IH]; [reflexivity |].
  cbn [contains strip_prefix].
  assert (E : (43 =? c) = false) by (apply N.eqb_neq; congruence).
  rewrite E. exact IH.
Qed.

Lemma timestamp_of_valid d :
  valid_datetime d ->
  iso_milliseconds_z d (timestamp_of d)
  /\ contains (timestamp_of d) (str "+00:00") = false.
Proof.
  intros (Hy & Hmo & Hd & Hh & Hmi & Hs & Hus).
  pose proof (field_4 (year d) ltac:(lia)) as Fy.
  pose proof (field_2 (month d) ltac:(lia)) as Fmo.
  pose proof (field_2 (day d) ltac:(lia)) as Fd.
  pose proof (field_2 (hour d) ltac:(lia)) as Fh.
  pose proof (field_2 (minute d) ltac:(lia)) as Fmi.
  pose proof (field_2 (second d) ltac:(lia)) as Fs.
  assert (Hms : microsecond d / 1000 < 1000)
    by (apply N.Div0.div_lt_upper_bound; lia).
  pose proof (field_3 (microsecond d / 1000) Hms) as Fms.
  set (p := format_d 4 (year d) ++ str "-" ++ format_d 2 (month d) ++ str "-"
            ++ format_d 2 (day d) ++ str "T" ++ format_d 2 (hour d) ++ str ":"
            ++ format_d 2 (minute d) ++ str ":" ++ format_d 2 (second d) ++ str "."
            ++ format_d 3 (microsecond d / 1000)).
  assert (Np : no_plus p).
  { subst p.
    repeat (apply no_plus_app;
            [first [ eapply field_no_plus; eassumption
                   | apply no_plus_sep; discriminate ] |]).
    eapply field_no_plus; eassumption. }
  assert (E : timestamp_of d = p ++ str "Z").
  { unfold timestamp_of, isoformat_milliseconds.
    rewrite <- (replace_trailing_offset p Np). f_equal.
    subst p. rewrite <- !app_assoc. reflexivity. }
  split.
  - exists (format_d 4 (year d)), (format_d 2 (month d)), (format_d 2 (day d)),
      (format_d 2 (hour d)), (format_d 2 (minute d)), (format_d 2 (second d)),
      (format_d 3 (microsecond d / 1000)).
    repeat split; try (apply Fy || apply Fmo || apply Fd || apply Fh
                       || apply Fmi || apply Fs || apply Fms).
    rewrite E. subst p. rewrite <- !app_assoc. reflexivity.
  - rewrite E. apply contains_no_plus.
    apply no_plus_app; [exact Np | apply no_plus_sep; discriminate].
Qed.

End Timestamp.

Section Bytes.

Lemma is_bytes_app a b : is_bytes a -> is_bytes b -> is_bytes (a ++ b).
Proof. intros Ha Hb. apply Forall_app. split; assumption. Qed.

Lemma is_bytes_repeat x n : x < 256 -> is_bytes (repeat x n).
Proof.
  intros Hx. apply Forall_forall. intros y Hy.
  apply repeat_spec in Hy. subst y. exact Hx.
Qed.

Ltac bytes_list :=
  unfold is_bytes; repeat (apply Forall_cons; [lia |]); apply Forall_nil.

Lemma some_inj {A} (x y : A) : Some x = Some y -> x = y.
Proof. congruence. Qed.

Lemma encode_char_bytes c bs : Utf8.encode_char c = Some bs -> is_bytes bs.
Proof.
  unfold Utf8.encode_char.
  destruct (N.ltb_spec c 0x80) as [H1 | H1].
  { intros E; apply some_inj in E; subst bs. bytes_list. }
  destruct (N.ltb_spec c 0x800) as [H2 | H2].
  { intros E; apply some_inj in E; subst bs.
    assert (c / 0x40 < 0x20) by (apply N.Div0.div_lt_upper_bound; lia).
    assert (c mod 0x40 < 0x40) by (apply N.mod_lt; lia).
    bytes_list. }
  destruct (Utf8.is_surrogate c); [discriminate |].
  destruct (N.ltb_spec c 0x10000) as [H3 | H3].
  { intros E; apply some_inj in E; subst bs.
    assert (c / 0x1000 < 0x10) by (apply N.Div0.div_lt_upper_bound; lia).
    assert ((c / 0x40) mod 0x40 < 0x40) by (apply N.mod_lt; lia).
    assert (c mod 0x40 < 0x40) by (apply N.mod_lt; lia).
    bytes_list. }
  destruct (N.ltb_spec c 0x110000) as [H4 | H4]; [| discriminate].
  intros E; apply some_inj in E; subst bs.
  assert (c / 0x40000 < 0x5) by (apply N.Div0.div_lt_upper_bound; lia).
  assert ((c / 0x1000) mod 0x40 < 0x40) by (apply N.mod_lt; lia).
  assert ((c / 0x40) mod 0x40 < 0x40) by (apply N.mod_lt; lia).
  assert (c mod 0x40 < 0x40) by (apply N.mod_lt; lia).
  bytes_list.
Qed.

Lemma encode_bytes s : forall b, Utf8.encode s = ok b -> is_bytes b.
Proof.
  induction s as [| c s IH]; intros b H; cbn [Utf8.encode] in H.
  - injection H as <-. constructor.
  - destruct (Utf8.encode_char c) as [bs |] eqn:Ec; [| discriminate H].
    destruct (Utf8.encode s) as [t | e]; [| discriminate H].
    injection H as <-. apply is_bytes_app.
    + eapply encode_char_bytes; eassumption.
    + apply IH. reflexivity.
Qed.

Lemma be_bytes_spec n x :
  List.length (Sha256.be_bytes n x) = n /\ is_bytes (Sha256.be_bytes n x).
Proof.
  induction n as [| n [IHl IHb]]; cbn [Sha256.be_bytes List.length].
  - split; [reflexivity | constructor].
  - split; [now rewrite IHl |].
    constructor; [apply N.mod_lt; lia | exact IHb].
Qed.

Lemma sha256_length m : List.length (Sha256.sha256 m) = 32%nat.
Proof.
  unfold Sha256.sha256, Sha256.digest_of_regs.
  rewrite !length_app, !(proj1 (be_bytes_spec 4 _)). reflexivity.
Qed.

Lemma sha256_bytes m : is_bytes (Sha256.sha256 m).
Proof.
  unfold Sha256.sha256, Sha256.digest_of_regs.
  repeat apply is_bytes_app; apply be_bytes_spec.
Qed.

Lemma hex_digit_lower d : d < 16 -> is_lower_hex (hex_digit d) = true.
Proof.
  intros Hd. unfold hex_digit, is_lower_hex.
  destruct (N.ltb_spec d 10).
  - apply orb_true_intro. left. apply andb_true_intro. split; apply N.leb_le; lia.
  - apply orb_true_intro. right. apply andb_true_intro. split; apply N.leb_le; lia.
Qed.

Lemma hexlify_length b : List.length (hexlify b) = (2 * List.length b)%nat.
Proof.
  unfold hexlify. induction b as [| x b IH]; [reflexivity |].
  cbn [flat_map List.length app]. rewrite IH. lia.
Qed.

Lemma hexlify_lower b : is_bytes b -> forallb is_lower_hex (hexlify b) = true.
Proof.
  unfold hexlify. induction 1 as [| x b Hx Hb IH]; [reflexivity |].
  cbn [flat_map app forallb]. rewrite IH.
  rewrite !hex_digit_lower; [reflexivity | apply N.mod_lt; lia |].
  apply N.Div0.div_lt_upper_bound. exact Hx.
Qed.

End Bytes.

Section HmacRefinement.

Import Hmac Rfc2104.

Lemma xor_repeat c key :
  xor_bytes key (repeat c (List.length key)) = List.map (fun x => N.lxor x c) key.
Proof.
  induction key as [| x key IH]; [reflexivity |].
  cbn [List.length repeat xor_bytes List.map]. rewrite IH. reflexivity.
Qed.

Lemma translate_table c key :
  is_bytes key ->
  translate key (List.map (fun x => N.lxor (N.of_nat x) c) (seq 0 256))
  = List.map (fun x => N.lxor x c) key.
Proof.
  intros H. unfold translate. apply map_ext_in. intros x Hx.
  unfold is_bytes in H. rewrite Forall_forall in H. apply H in Hx.
  set (f := fun y : nat => N.lxor (N.of_nat y) c).
  rewrite (nth_indep _ 0 (f 0%nat)) by (rewrite length_map, length_seq; lia).
  rewrite map_nth, seq_nth by lia.
  unfold f. cbn [Nat.add]. rewrite N2Nat.id. reflexivity.
Qed.

Lemma block_key_spec key :
  is_bytes key ->
  let k0 := block_key Sha256.sha256 64 key in
  List.length k0 = 64%nat /\ is_bytes k0.
Proof.
  intros H. unfold block_key.
  destruct (Nat.ltb_spec 64 (List.length key)) as [Hl | Hl].
  - rewrite sha256_length. split.
    + rewrite length_app, sha256_length, repeat_length. reflexivity.
    + apply is_bytes_app; [apply sha256_bytes | apply is_bytes_repeat; lia].
  - split.
    + rewrite length_app, repeat_length. lia.
    + apply is_bytes_app; [exact H | apply is_bytes_repeat; lia].
Qed.

(** The [hmac] module computes the HMAC of RFC 2104 over SHA-256. *)
Lemma hmac_module_refines_rfc key msg :
  is_bytes key ->
  Hmac.digest (Hmac.new key msg) = hmac_sha256 key msg.
Proof.
  intros H. destruct (block_key_spec key H) as [Hlen Hb].
  unfold Hmac.digest, Hmac.new, hmac_sha256, hmac.
  cbn [inner outer Hashlib.copy Hashlib.update Hashlib.new Hashlib.fed
       Hashlib.digest app].
  change (ljust (if (Hashlib.block_size <? List.length key)%nat
                 then Sha256.sha256 key else key) Hashlib.block_size)
    with (block_key Sha256.sha256 64 key).
  set (k0 := block_key Sha256.sha256 64 key) in *.
  unfold trans_5C, trans_36, opad, ipad.
  rewrite !translate_table by exact Hb.
  rewrite <- Hlen, !xor_repeat. reflexivity.
Qed.

End HmacRefinement.

Section Printable.

Lemma encodable_cons c s :
  utf8_encodable (c :: s) = true <->
  Utf8.encode_char c <> None /\ utf8_encodable s = true.
Proof.
  unfold utf8_encodable. cbn [Utf8.encode].
  destruct (Utf8.encode_char c) as [bs |].
  - destruct (Utf8.encode s); cbn [rbind]; split.
    + intros _. split; [discriminate | reflexivity].
    + reflexivity.
    + discriminate.
    + intros [_ H]. discriminate H.
  - split; [discriminate | intros [H _]; contradiction].
Qed.

Lemma encodable_app a b :
  utf8_encodable (a ++ b) = true <->
  utf8_encodable a = true /\ utf8_encodable b = true.
Proof.
  induction a as [| c a IH]; cbn [app].
  - split; [intros H; split; [reflexivity | exact H] | intros [_ H]; exact H].
  - rewrite !encodable_cons, IH. tauto.
Qed.

Lemma encodable_ok s : utf8_encodable s = true <-> exists b, Utf8.encode s = ok b.
Proof.
  unfold utf8_encodable. destruct (Utf8.encode s) as [b | e]; split.
  - intros _. exists b. reflexivity.
  - reflexivity.
  - discriminate.
  - intros [b H]. discriminate H.
Qed.

Lemma accepted_encodable lo c :
  Utf8.accept lo c = true -> Utf8.encode_char c <> None.
Proof.
  unfold Utf8.accept, Utf8.encode_char. intros H.
  apply andb_prop in H. destruct H as [H Hlt].
  apply andb_prop in H. destruct H as [_ Hs].
  apply negb_true_iff in Hs. rewrite Hs, Hlt.
  destruct (c <? 0x80), (c <? 0x800), (c <? 0x10000); discriminate.
Qed.

(** Text obtained by decoding UTF-8 can be encoded again: it has no lone
    surrogate. *)
Lemma decode_encodable n : forall b s,
  (List.length b <= n)%nat -> Utf8.decode b = ok s -> utf8_encodable s = true.
Proof.
  induction n as [| n IH]; intros b s Hn H.
  - destruct b; [injection H as <-; reflexivity | cbn in Hn; lia].
  - destruct b as [| b0 r0]; [injection H as <-; reflexivity |].
    cbn [Utf8.decode] in H. cbn [List.length] in Hn.
    assert (K : forall r c, (List.length r <= n)%nat ->
                  Utf8.encode_char c <> None ->
                  rbind (Utf8.decode r) (fun t => ok (c :: t)) = ok s ->
                  utf8_encodable s = true).
    { intros r c Hr Hc Hd.
      destruct (Utf8.decode r) as [t' |] eqn:E; [| discriminate Hd].
      injection Hd as <-. apply encodable_cons. split; [exact Hc |].
      apply (IH r); [exact Hr | exact E]. }
    destruct (N.ltb_spec b0 0x80) as [H1 | H1].
    { apply (K r0 b0); [lia | | exact H].
      unfold Utf8.encode_char. apply N.ltb_lt in H1. rewrite H1. discriminate. }
    destruct (b0 <? 0xC0); [discriminate H |].
    destruct (b0 <? 0xE0).
    { destruct r0 as [| b1 r1]; [discriminate H |].
      destruct (Utf8.is_cont b1 && Utf8.accept 0x80 _) eqn:A; [| discriminate H].
      apply andb_prop in A. destruct A as [_ A]. apply accepted_encodable in A.
      apply (K r1 _) in H; [exact H | cbn [List.length] in Hn; lia | exact A]. }
    destruct (b0 <? 0xF0).
    { destruct r0 as [| b1 [| b2 r2]]; try discriminate H.
      destruct (Utf8.is_cont b1 && Utf8.is_cont b2 && Utf8.accept 0x800 _) eqn:A;
        [| discriminate H].
      apply andb_prop in A. destruct A as [_ A]. apply accepted_encodable in A.
      apply (K r2 _) in H; [exact H | cbn [List.length] in Hn; lia | exact A]. }
    destruct (b0 <? 0xF8); [| discriminate H].
    destruct r0 as [| b1 [| b2 [| b3 r3]]]; try discriminate H.
    destruct (Utf8.is_cont b1 && Utf8.is_cont b2 && Utf8.is_cont b3
              && Utf8.accept 0x10000 _) eqn:A; [| discriminate H].
    apply andb_prop in A. destruct A as [_ A]. apply accepted_encodable in A.
    apply (K r3 _) in H; [exact H | cbn [List.length] in Hn; lia | exact A].
Qed.

Lemma decoded_printable b s : Utf8.decode b = ok s -> utf8_encodable s = true.
Proof. apply (decode_encodable (List.length b)). lia. Qed.

End Printable.

(** ** The functions of the program *)

Section Program.

Lemma bind_ok {A B} (c : M A) (k : A -> M B) w a w' :
  c w = (ok a, w') -> bind c k w = k a w'.
Proof. intros H. unfold bind. rewrite H. reflexivity. Qed.

Lemma bind_raise {A B} (c : M A) (k : A -> M B) w e w' :
  c w = (raise e, w') -> bind c k w = (raise e, w').
Proof. intros H. unfold bind. rewrite H. reflexivity. Qed.

Lemma frame_refl w : frame w w.
Proof. repeat split. Qed.

Lemma frame_trans w1 w2 w3 : frame w1 w2 -> frame w2 w3 -> frame w1 w3.
Proof.
  unfold frame. intros (A1 & B1 & C1 & D1) (A2 & B2 & C2 & D2).
  repeat split; congruence.
Qed.

Lemma ascii_encodable s : Forall (fun c => c < 0x80) s -> utf8_encodable s = true.
Proof.
  induction 1 as [| c s Hc Hs IH]; [reflexivity |].
  apply encodable_cons. split; [| exact IH].
  unfold Utf8.encode_char. apply N.ltb_lt in Hc. rewrite Hc. discriminate.
Qed.

Lemma lower_hex_ascii s :
  forallb is_lower_hex s = true -> Forall (fun c => c < 0x80) s.
Proof.
  intros H. rewrite forallb_forall in H. apply Forall_forall. intros c Hc.
  apply H in Hc. unfold is_lower_hex in Hc.
  apply orb_prop in Hc. destruct Hc as [Hc | Hc];
    apply andb_prop in Hc; destruct Hc as [_ Hc]; apply N.leb_le in Hc; lia.
Qed.

(** *** [calculate_signature] *)

Lemma calculate_signature_ok payload secret pb sb w :
  Utf8.encode payload = ok pb -> Utf8.encode secret = ok sb ->
  calculate_signature payload secret w
  = (ok (str "sha256=" ++ hexlify (Rfc2104.hmac_sha256 sb pb)), w).
Proof.
  intros Hp Hs. unfold calculate_signature, bind, lift, ret.
  rewrite Hp, Hs. unfold Hmac.hexdigest.
  rewrite hmac_module_refines_rfc by (eapply encode_bytes; eassumption).
  reflexivity.
Qed.

Lemma calculate_signature_world payload secret w :
  snd (calculate_signature payload secret w) = w.
Proof.
  unfold calculate_signature, bind, lift, ret.
  destruct (Utf8.encode payload); [| reflexivity].
  destruct (Utf8.encode secret); reflexivity.
Qed.

Lemma calculate_signature_raises payload secret w e w' :
  calculate_signature payload secret w = (raise e, w') -> e = UnicodeEncodeError.
Proof.
  unfold calculate_signature, bind, lift, ret.
  assert (K : forall s e', Utf8.encode s = raise e' -> e' = UnicodeEncodeError).
  { induction s as [| c s IH]; intros e' H; cbn [Utf8.encode] in H; [discriminate H |].
    destruct (Utf8.encode_char c); [| congruence].
    destruct (Utf8.encode s); [discriminate H |].
    injection H as <-. apply IH. reflexivity. }
  destruct (Utf8.encode payload) eqn:Ep; [| intros [= <- _]; eapply K; eassumption].
  destruct (Utf8.encode secret) eqn:Es; [discriminate |].
  intros [= <- _]. eapply K; eassumption.
Qed.

Lemma signature_encodable sb pb :
  utf8_encodable (str "sha256=" ++ hexlify (Rfc2104.hmac_sha256 sb pb)) = true.
Proof.
  apply encodable_app. split; [reflexivity |].
  apply ascii_encodable, lower_hex_ascii, hexlify_lower, sha256_bytes.
Qed.

(** *** [create_payload] *)

Lemma create_payload_run name email resume_link repository_link action_run_link w :
  create_payload name email resume_link repository_link action_run_link w
  = (ok (payload_of name email resume_link repository_link action_run_link
                    (timestamp_of (clock w (ticks w)))),
     ticked w).
Proof. reflexivity. Qed.

(** *** [submit_application] *)

Lemma print_ok line w :
  forallb printable line = true -> print line w = (ok tt, printed w line).
Proof. intros H. unfold print. rewrite H. reflexivity. Qed.

Lemma print_frame line w r w' :
  print line w = (r, w') -> frame w w' /\ requests w' = requests w.
Proof.
  unfold print. destruct (forallb printable line); intros [= <- <-];
    (split; [repeat split | reflexivity]).
Qed.

Lemma decode_raises n : forall b e,
  (List.length b <= n)%nat -> Utf8.decode b = raise e -> e = UnicodeDecodeError.
Proof.
  induction n as [| n IH]; intros b e Hn H.
  - destruct b; [discriminate H | cbn in Hn; lia].
  - destruct b as [| b0 r0]; [discriminate H |].
    cbn [Utf8.decode] in H. cbn [List.length] in Hn.
    assert (R : forall r c, (List.length r <= n)%nat ->
                  rbind (Utf8.decode r) (fun t => ok (c :: t)) = raise e ->
                  e = UnicodeDecodeError).
    { intros r c Hr Hd. destruct (Utf8.decode r) eqn:E; [discriminate Hd |].
      injection Hd as <-. eapply IH; eassumption. }
    repeat match type of H with
           | (if ?c then _ else _) = _ => destruct c
           | match ?l with [] => _ | _ :: _ => _ end = _ =>
               destruct l; cbn [List.length] in Hn
           | raise _ = raise _ => injection H as <-; reflexivity
           | rbind _ _ = _ => eapply R; [| exact H]; cbn [List.length]; lia
           end.
Qed.

Lemma scanstring_raises n : forall s acc e,
  (List.length s <= n)%nat ->
  JsonDecoder.scanstring s acc = raise e -> e = JSONDecodeError.
Proof.
  induction n as [| n IH]; intros s acc e Hn H.
  - destruct s; [injection H as <-; reflexivity | cbn in Hn; lia].
  - destruct s as [| c s]; [injection H as <-; reflexivity |].
    cbn [JsonDecoder.scanstring] in H. cbn [List.length] in Hn.
    repeat match type of H with
           | (if ?c then _ else _) = _ => destruct c
           | match ?l with [] => _ | _ :: _ => _ end = _ =>
               destruct l; cbn [List.length] in Hn
           | match ?o with Some _ => _ | None => _ end = _ => destruct o
           | raise _ = raise _ => injection H as <-; reflexivity
           | ok _ = raise _ => discriminate H
           | JsonDecoder.scanstring _ _ = _ =>
               eapply IH; [| exact H]; cbn [List.length]; lia
           end.
Qed.

Lemma match_number_raises s e :
  JsonDecoder.match_number s = raise e -> e = JSONDecodeError \/ e = ValueError.
Proof.
  unfold JsonDecoder.match_number. intros H.
  repeat match type of H with
         | (let '(_, _) := ?p in _) = _ => destruct p
         | (if ?c then _ else _) = _ => destruct c
         | match ?o with Some _ => _ | None => _ end = _ => destruct o
         | raise _ = raise _ => injection H as <-; auto
         | ok _ = raise _ => discriminate H
         end.
Qed.

(** The decoder raises nothing but [JSONDecodeError] and [ValueError], or
    [RecursionError] for want of fuel. *)
Lemma parser_raises f :
  (forall s e, JsonDecoder.scan_once f s = raise e ->
               decoder_error e)
  /\ (forall s d e, JsonDecoder.parse_members f s d = raise e ->
                    decoder_error e)
  /\ (forall s l e, JsonDecoder.parse_elements f s l = raise e ->
                    decoder_error e).
Proof.
  induction f as [| f [IHs [IHm IHe]]].
  - repeat split; intros; right; right; cbn in *; congruence.
  - repeat split.
    + intros s e H. cbn [JsonDecoder.scan_once] in H.
      destruct s as [| c r]; [left; congruence |].
      destruct (c =? 34).
      { destruct (JsonDecoder.scanstring r []) as [[x r'] |] eqn:E; [discriminate H |].
        injection H as <-. left. eapply scanstring_raises; [| exact E]. reflexivity. }
      destruct (c =? 123).
      { destruct (JsonDecoder.skip_ws r) as [| c1 r1]; [left; congruence |].
        destruct (c1 =? 125); [discriminate H |]. eapply IHm; exact H. }
      destruct (c =? 91).
      { destruct (JsonDecoder.skip_ws r) as [| c1 r1]; [left; congruence |].
        destruct (c1 =? 93); [discriminate H |]. eapply IHe; exact H. }
      destruct (JsonDecoder.match_literal JsonDecoder.literals (c :: r));
        [discriminate H |].
      apply match_number_raises in H. unfold decoder_error. tauto.
    + intros s d e H. cbn [JsonDecoder.parse_members] in H.
      destruct s as [| c r]; [left; congruence |].
      destruct (c =? 34); [| left; congruence].
      destruct (JsonDecoder.scanstring r []) as [[key r1] |] eqn:E.
      2:{ injection H as <-. left. eapply scanstring_raises; [| exact E]. reflexivity. }
      cbn [rbind] in H.
      destruct (JsonDecoder.skip_ws r1) as [| c2 r2]; [left; congruence |].
      destruct (c2 =? 58); [| left; congruence].
      destruct (JsonDecoder.scan_once f (JsonDecoder.skip_ws r2)) as [[v r3] |] eqn:E2.
      2:{ injection H as <-. eapply IHs; exact E2. }
      cbn [rbind] in H.
      destruct (JsonDecoder.skip_ws r3) as [| c3 r4]; [left; congruence |].
      destruct (c3 =? 125); [discriminate H |].
      destruct (c3 =? 44); [| left; congruence].
      eapply IHm; exact H.
    + intros s l e H. cbn [JsonDecoder.parse_elements] in H.
      destruct (JsonDecoder.scan_once f s) as [[v r1] |] eqn:E.
      2:{ injection H as <-. eapply IHs; exact E. }
      cbn [rbind] in H.
      destruct (JsonDecoder.skip_ws r1) as [| c r2]; [left; congruence |].
      destruct (c =? 93); [discriminate H |].
      destruct (c =? 44); [| left; congruence].
      eapply IHe; exact H.
Qed.

Lemma loads_raises s e :
  JsonDecoder.loads s = raise e -> decoder_error e.
Proof.
  assert (D : JsonDecoder.decode s = raise e ->
              decoder_error e).
  { unfold JsonDecoder.decode. intros H.
    destruct (JsonDecoder.scan_once _ _) as [[v r] |] eqn:E.
    - cbn [rbind] in H. destruct (JsonDecoder.skip_ws r); [discriminate H |].
      left; congruence.
    - injection H as <-. eapply (proj1 (parser_raises _)); exact E. }
  unfold JsonDecoder.loads. destruct s as [| c r]; [exact D |].
  destruct (c =? 0xFEFF); [left; congruence | exact D].
Qed.

(** The clause for exceptions other than [HTTPError] prints and returns
    [None]. *)
Lemma generic_handler e w :
  absorbed e ->
  exists h w', submit_handlers e = Some h /\ h w = (ok PNone, w')
               /\ frame w w' /\ requests w' = requests w.
Proof.
  intros [He Hn].
  exists (bind (print [Text (str "Error submitting application: "); Message e])
               (fun _ => ret PNone)),
         (printed w [Text (str "Error submitting application: "); Message e]).
  split; [| split; [| split; [repeat split | reflexivity]]].
  - destruct e; try reflexivity; try discriminate He.
    exfalso. eapply Hn. reflexivity.
  - reflexivity.
Qed.

(** The [try] body, for a response with a success status whose body was
    read: it returns what [receipt_of_body] says, or raises an exception the
    second clause takes when that is [None]. *)
Lemma submit_attempt_result b w req :
  endpoint w req = Response (ReadOk b) ->
  exists r w',
    submit_attempt req w = (r, w')
    /\ frame w w' /\ requests w' = requests w ++ [req]
    /\ match r with
       | ok v => v = receipt_of_body b
       | raise e => receipt_of_body b = PNone /\ absorbed e
       end.
Proof.
  intros Hnet. unfold receipt_of_body, submit_attempt.
  unfold bind at 1. unfold urlopen. rewrite Hnet.
  unfold bind at 1. unfold read, ret.
  unfold bind at 1. unfold lift at 1.
  assert (F : frame w (requested w req)) by (repeat split).
  assert (Q : requests (requested w req) = requests w ++ [req]) by reflexivity.
  destruct (Utf8.decode b) as [text | e] eqn:Ed.
  2:{ eexists _, _. split; [reflexivity |]. repeat split; try assumption.
      - apply decode_raises with (n := List.length b) in Ed; [| reflexivity].
        subst e. reflexivity.
      - apply decode_raises with (n := List.length b) in Ed; [| reflexivity].
        subst e. discriminate. }
  unfold bind at 1. unfold lift at 1.
  destruct (JsonDecoder.loads text) as [v | e] eqn:El.
  2:{ eexists _, _. split; [reflexivity |]. repeat split; try assumption;
      apply loads_raises in El; destruct El as [-> | [-> | ->]];
      try reflexivity; discriminate. }
  unfold bind at 1.
  assert (NotDict : (forall d, v <> PDict d) ->
            py_get v (str "success") (requested w req)
            = (raise AttributeError, requested w req)
            /\ match v with PDict _ => False | _ => True end).
  { intros Hv. destruct v; try (split; [reflexivity | exact I]).
    exfalso. eapply Hv. reflexivity. }
  destruct v as [| bb | z | fl | sx | l | d];
    try (destruct NotDict as [-> _]; [discriminate |];
         eexists _, _; split; [reflexivity |]; repeat split; try assumption;
         discriminate).
  clear NotDict. cbn [py_get ret].
  set (sv := match dict_get d (str "success") with Some x => x | None => PNone end).
  destruct (truthy sv) eqn:Ht.
  - unfold bind at 1. cbn [py_getitem].
    destruct (dict_get d (str "receipt")) as [r |] eqn:Er.
    2:{ eexists _, _. split; [reflexivity |]. repeat split; try assumption.
        discriminate. }
    unfold ret at 1. unfold bind at 1. unfold print.
    cbn [forallb]. 
    assert (E1 : printable (Text (str "Submission successful! Receipt: ")) = true)
      by reflexivity.
    rewrite E1. cbn [andb]. rewrite andb_true_r.
    destruct (printable (Value r)) eqn:Pr.
    + eexists _, _. split; [reflexivity |]. repeat split; assumption.
    + eexists _, _. split; [reflexivity |]. repeat split; try assumption.
      discriminate.
  - unfold bind at 1. unfold print. cbn [forallb].
    assert (E1 : printable (Text (str "Submission failed: ")) = true) by reflexivity.
    rewrite E1. cbn [andb printable]. rewrite (decoded_printable _ _ Ed). cbn [andb].
    eexists _, _. split; [reflexivity |]. repeat split; assumption.
Qed.

Lemma submit_application_run payload signature data w :
  Utf8.encode payload = ok data ->
  exists w',
    submit_application payload signature w
    = (submission_result (endpoint w (submission_request data signature)), w')
    /\ frame w w'
    /\ requests w' = requests w ++ [submission_request data signature].
Proof.
  intros He. unfold submit_application, bind at 1, lift at 1. rewrite He.
  set (req := submission_request data signature).
  unfold try_except.
  assert (F : frame w (requested w req)) by (repeat split).
  assert (Q : requests (requested w req) = requests w ++ [req]) by reflexivity.
  destruct (endpoint w req) as [[b |] | code reason [b |] |] eqn:Hnet.
  - destruct (submit_attempt_result b w req Hnet) as (r & w1 & Hr & F1 & Q1 & Hv).
    rewrite Hr. destruct r as [v | e].
    + subst v. exists w1. repeat split; try apply F1. exact Q1.
    + destruct Hv as [Hnone Hab].
      destruct (generic_handler e w1 Hab) as (h & w2 & Hh & Hrun & F2 & Q2).
      rewrite Hh, Hrun. cbn [submission_result]. rewrite Hnone.
      exists w2. repeat split; try apply (frame_trans _ _ _ F1 F2). congruence.
  - unfold submit_attempt, bind at 1, urlopen. rewrite Hnet.
    unfold bind at 1, read, throw.
    cbn [submit_handlers is_Exception].
    eexists. split; [reflexivity |]. split; [repeat split | reflexivity].
  - unfold submit_attempt, bind at 1, urlopen. rewrite Hnet.
    cbn [submit_handlers submission_result].
    unfold bind at 1. rewrite print_ok by reflexivity.
    unfold bind at 1, read, ret.
    unfold bind at 1, lift at 1.
    destruct (Utf8.decode b) as [text | e] eqn:Ed.
    + unfold bind at 1. rewrite print_ok.
      * eexists. split; [reflexivity |]. split; [repeat split | reflexivity].
      * cbn [forallb printable]. rewrite (decoded_printable _ _ Ed). reflexivity.
    + eexists. split; [reflexivity |]. split; [repeat split | reflexivity].
  - unfold submit_attempt, bind at 1, urlopen. rewrite Hnet.
    cbn [submit_handlers submission_result].
    unfold bind at 1. rewrite print_ok by reflexivity.
    unfold bind at 1, read, throw.
    eexists. split; [reflexivity |]. split; [repeat split | reflexivity].
  - unfold submit_attempt, bind at 1, urlopen. rewrite Hnet.
    cbn [submit_handlers is_Exception submission_result].
    eexists. split; [reflexivity |]. split; [repeat split | reflexivity].
Qed.

Lemma submit_application_unencodable payload signature e w :
  Utf8.encode payload = raise e ->
  submit_application payload signature w = (raise e, w).
Proof.
  intros He. unfold submit_application, bind, lift. rewrite He. reflexivity.
Qed.

End Program.

(** ** The decoder never runs out of fuel *)

Section Fuel.

Import JsonDecoder.

Lemma span_digits_length s :
  (List.length (snd (span_digits s)) <= List.length s)%nat.
Proof.
  induction s as [| c r IH]; cbn [span_digits]; [cbn; lia |].
  destruct (is_digit c); [| cbn; lia].
  destruct (span_digits r) as [ds rest]. cbn [snd List.length] in *. lia.
Qed.

Lemma strip_prefix_length p : forall s r,
  strip_prefix p s = Some r -> (List.length r + List.length p = List.length s)%nat.
Proof.
  induction p as [| x p IH]; intros s r H; cbn [strip_prefix] in H.
  - injection H as <-. cbn. lia.
  - destruct s as [| y s]; [discriminate H |].
    destruct (x =? y); [| discriminate H].
    apply IH in H. cbn [List.length]. lia.
Qed.

Lemma match_literal_consumes s v r :
  match_literal literals s = Some (v, r) -> (List.length r < List.length s)%nat.
Proof.
  unfold literals. cbn [match_literal]. intros H.
  repeat match type of H with
         | match strip_prefix ?p s with Some _ => _ | None => _ end = _ =>
             let E := fresh "E" in
             destruct (strip_prefix p s) eqn:E;
             [ injection H as _ <-; apply strip_prefix_length in E;
               cbn [List.length str List.map list_ascii_of_string] in E; lia |]
         end.
  discriminate H.
Qed.

Lemma match_number_consumes s v r :
  match_number s = ok (v, r) -> (List.length r < List.length s)%nat.
Proof.
  unfold match_number.
  set (p := match s with
            | [] => (false, s)
            | c :: r0 => if c =? 45 then (true, r0) else (false, s)
            end).
  assert (Hp : (List.length (snd p) <= List.length s)%nat).
  { subst p. destruct s as [| c r0]; [cbn; lia |].
    destruct (c =? 45); cbn; lia. }
  destruct p as [neg s1]. cbn [snd] in Hp.
  unfold int_part.
  destruct s1 as [| c r1]; [discriminate |].
  match goal with
  | |- match ?x with Some _ => _ | None => _ end = _ -> _ => set (ip := x)
  end.
  assert (Hi : forall ids s2, ip = Some (ids, s2) ->
                              (List.length s2 < List.length (c :: r1))%nat).
  { subst ip. intros ids s2 H. destruct (c =? 48).
    - injection H as _ <-. cbn. lia.
    - destruct (is_digit c) eqn:Ed; [| discriminate H].
      cbn [span_digits] in H. rewrite Ed in H.
      pose proof (span_digits_length r1) as L.
      destruct (span_digits r1) as [ds rest]. injection H as _ <-.
      cbn [snd List.length] in *. lia. }
  destruct ip as [[ids s2] |]; [| discriminate].
  specialize (Hi ids s2 eq_refl).
  assert (Hf : forall fds s3, frac_part s2 = Some (fds, s3) ->
                              (List.length s3 <= List.length s2)%nat).
  { unfold frac_part. intros fds s3 H.
    destruct s2 as [| p0 [| c0 t]]; try discriminate H.
    destruct ((p0 =? 46) && is_digit c0); [| discriminate H].
    pose proof (span_digits_length (tl (p0 :: c0 :: t))) as L.
    destruct (span_digits (tl (p0 :: c0 :: t))) as [ds rest].
    injection H as _ <-. cbn [snd tl List.length] in *. lia. }
  assert (He : forall s3 ex s4, exp_part s3 = Some (ex, s4) ->
                                (List.length s4 <= List.length s3)%nat).
  { unfold exp_part. intros s3 ex s4 H.
    destruct s3 as [| e0 r0]; [discriminate H |].
    destruct ((e0 =? 101) || (e0 =? 69)); [| discriminate H].
    set (q := match r0 with
              | [] => (false, r0)
              | sg :: r2 => if sg =? 45 then (true, r2)
                            else if sg =? 43 then (false, r2) else (false, r0)
              end) in H.
    assert (Hq : (List.length (snd q) <= List.length r0)%nat).
    { subst q. destruct r0 as [| sg r2]; [cbn; lia |].
      destruct (sg =? 45); [cbn; lia |]. destruct (sg =? 43); cbn; lia. }
    destruct q as [ng r']. cbn [snd] in Hq.
    pose proof (span_digits_length r') as L.
    destruct (span_digits r') as [[| d0 ds] rest]; [discriminate H |].
    injection H as _ <-. cbn [snd List.length] in *. lia. }
  destruct (frac_part s2) as [[fds s3] |] eqn:Ef.
  - specialize (Hf _ _ eq_refl).
    destruct (exp_part s3) as [[ex s4] |] eqn:Ee.
    + specialize (He _ _ _ Ee). cbn [orb]. intros [= _ <-]. lia.
    + cbn [orb]. intros [= _ <-]. lia.
  - destruct (exp_part s2) as [[ex s4] |] eqn:Ee.
    + specialize (He _ _ _ Ee). cbn [orb]. intros [= _ <-]. lia.
    + cbn [orb]. destruct (int_max_str_digits <? List.length ids)%nat;
        [discriminate |]. intros [= _ <-]. lia.
Qed.

(** Every successful call consumes some of the text. *)
Lemma parser_consumes f :
  (forall s v r, scan_once f s = ok (v, r) ->
                 (List.length r < List.length s)%nat)
  /\ (forall s d v r, parse_members f s d = ok (v, r) ->
                      (List.length r < List.length s)%nat)
  /\ (forall s l v r, parse_elements f s l = ok (v, r) ->
                      (List.length r < List.length s)%nat).
Proof.
  induction f as [| f [IHs [IHm IHe]]].
  - repeat split; intros; discriminate.
  - repeat split.
    + intros s v r H. cbn [scan_once] in H.
      destruct s as [| c t]; [discriminate H |]. cbn [List.length].
      destruct (c =? 34).
      { destruct (scanstring t []) as [[x r'] |] eqn:E; [| discriminate H].
        apply scanstring_consumes in E. injection H as _ <-. lia. }
      pose proof (skip_ws_length t) as W.
      destruct (c =? 123).
      { destruct (skip_ws t) as [| c1 r1]; [discriminate H |].
        cbn [List.length] in W.
        destruct (c1 =? 125); [injection H as _ <-; lia |].
        apply IHm in H. cbn [List.length] in H. lia. }
      destruct (c =? 91).
      { destruct (skip_ws t) as [| c1 r1]; [discriminate H |].
        cbn [List.length] in W.
        destruct (c1 =? 93); [injection H as _ <-; lia |].
        apply IHe in H. cbn [List.length] in H. lia. }
      destruct (match_literal literals (c :: t)) as [[v' r'] |] eqn:E.
      * injection H as _ <-. apply match_literal_consumes in E.
        cbn [List.length] in E. lia.
      * apply match_number_consumes in H. cbn [List.length] in H. lia.
    + intros s d v r H. cbn [parse_members] in H.
      destruct s as [| c t]; [discriminate H |]. cbn [List.length].
      destruct (c =? 34); [| discriminate H].
      destruct (scanstring t []) as [[key r1] |] eqn:E; [| discriminate H].
      apply scanstring_consumes in E. cbn [rbind] in H.
      pose proof (skip_ws_length r1) as W1.
      destruct (skip_ws r1) as [| c2 r2]; [discriminate H |].
      cbn [List.length] in W1.
      destruct (c2 =? 58); [| discriminate H].
      pose proof (skip_ws_length r2) as W2.
      destruct (scan_once f (skip_ws r2)) as [[v3 r3] |] eqn:E2; [| discriminate H].
      apply IHs in E2. cbn [rbind] in H.
      pose proof (skip_ws_length r3) as W3.
      destruct (skip_ws r3) as [| c3 r4]; [discriminate H |].
      cbn [List.length] in W3.
      destruct (c3 =? 125); [injection H as _ <-; lia |].
      destruct (c3 =? 44); [| discriminate H].
      pose proof (skip_ws_length r4) as W4.
      apply IHm in H. lia.
    + intros s l v r H. cbn [parse_elements] in H.
      destruct (scan_once f s) as [[v1 r1] |] eqn:E; [| discriminate H].
      apply IHs in E. cbn [rbind] in H.
      pose proof (skip_ws_length r1) as W1.
      destruct (skip_ws r1) as [| c r2]; [discriminate H |].
      cbn [List.length] in W1.
      destruct (c =? 93); [injection H as _ <-; lia |].
      destruct (c =? 44); [| discriminate H].
      pose proof (skip_ws_length r2) as W2.
      apply IHe in H. lia.
Qed.

(** With fuel twice the length of the text (and one more before an array
    element), no call finds the fuel exhausted. *)
Lemma parser_fuelled f :
  (forall s, (2 * List.length s + 1 <= f)%nat ->
             scan_once f s <> raise RecursionError)
  /\ (forall s d, (2 * List.length s + 1 <= f)%nat ->
                  parse_members f s d <> raise RecursionError)
  /\ (forall s l, (2 * List.length s + 2 <= f)%nat ->
                  parse_elements f s l <> raise RecursionError).
Proof.
  induction f as [| f [IHs [IHm IHe]]].
  - repeat split; intros; lia.
  - repeat split.
    + intros s Hf. cbn [scan_once].
      destruct s as [| c t]; [discriminate |]. cbn [List.length] in Hf.
      destruct (c =? 34).
      { destruct (scanstring t []) as [[x r'] |] eqn:E; [discriminate |].
        apply scanstring_raises with (n := List.length t) in E; [| reflexivity].
        subst e. discriminate. }
      pose proof (skip_ws_length t) as W.
      destruct (c =? 123).
      { destruct (skip_ws t) as [| c1 r1]; [discriminate |].
        destruct (c1 =? 125); [discriminate |]. apply IHm. lia. }
      destruct (c =? 91).
      { destruct (skip_ws t) as [| c1 r1]; [discriminate |].
        destruct (c1 =? 93); [discriminate |]. apply IHe. lia. }
      destruct (match_literal literals (c :: t)); [discriminate |].
      intros H. apply match_number_raises in H. destruct H; discriminate.
    + intros s d Hf. cbn [parse_members].
      destruct s as [| c t]; [discriminate |]. cbn [List.length] in Hf.
      destruct (c =? 34); [| discriminate].
      destruct (scanstring t []) as [[key r1] |] eqn:E.
      2:{ apply scanstring_raises with (n := List.length t) in E; [| reflexivity].
          subst e. discriminate. }
      apply scanstring_consumes in E. cbn [rbind].
      pose proof (skip_ws_length r1) as W1.
      destruct (skip_ws r1) as [| c2 r2]; [discriminate |].
      cbn [List.length] in W1.
      destruct (c2 =? 58); [| discriminate].
      pose proof (skip_ws_length r2) as W2.
      destruct (scan_once f (skip_ws r2)) as [[v3 r3] |] eqn:E2.
      2:{ cbn [rbind]. intros [= ->]. revert E2. apply IHs. lia. }
      apply (proj1 (parser_consumes f)) in E2. cbn [rbind].
      pose proof (skip_ws_length r3) as W3.
      destruct (skip_ws r3) as [| c3 r4]; [discriminate |].
      cbn [List.length] in W3.
      destruct (c3 =? 125); [discriminate |].
      destruct (c3 =? 44); [| discriminate].
      pose proof (skip_ws_length r4) as W4. apply IHm. lia.
    + intros s l Hf. cbn [parse_elements].
      destruct (scan_once f s) as [[v1 r1] |] eqn:E.
      2:{ cbn [rbind]. intros [= ->]. revert E. apply IHs. lia. }
      apply (proj1 (parser_consumes f)) in E. cbn [rbind].
      pose proof (skip_ws_length r1) as W1.
      destruct (skip_ws r1) as [| c r2]; [discriminate |].
      cbn [List.length] in W1.
      destruct (c =? 93); [discriminate |].
      destruct (c =? 44); [| discriminate].
      pose proof (skip_ws_length r2) as W2. apply IHe. lia.
Qed.

(** [json.loads] never raises [RecursionError]: its fuel is enough for any
    text. *)
Lemma loads_fuelled s : loads s <> raise RecursionError.
Proof.
  assert (D : decode s <> raise RecursionError).
  { unfold decode.
    destruct (scan_once _ _) as [[v r] |] eqn:E; cbn [rbind].
    - destruct (skip_ws r); discriminate.
    - intros [= ->]. revert E. apply (proj1 (parser_fuelled _)).
      pose proof (skip_ws_length s). lia. }
  unfold loads. destruct s as [| c r]; [exact D |].
  destruct (c =? 0xFEFF); [discriminate | exact D].
Qed.

(** So a text [json.loads] refuses is refused as malformed (or for an
    over-long integer), never for lack of fuel. *)
Lemma loads_rejects s e :
  loads s = raise e -> e = JSONDecodeError \/ e = ValueError.
Proof.
  intros H. destruct (loads_raises s e H) as [-> | [-> | ->]]; auto.
  exfalso. exact (loads_fuelled s H).
Qed.

End Fuel.

Section Main.

Ltac main_prepare_prefix w :=
  unfold main_prepare;
  unfold bind at 1, environ_get;
  unfold bind at 1; rewrite create_payload_run;
  change (match environ w "GITHUB_RUN_URL" with
          | Some u => u | None => placeholder_run_link end) with (run_link w);
  change (payload_of _ _ _ _ _ _) with (main_payload w);
  unfold bind at 1; rewrite print_ok by reflexivity;
  unfold bind at 1; unfold print at 1; cbn [forallb printable];
  rewrite andb_true_r.

Lemma main_prepare_run w :
  exists w1,
    frame w w1 /\ requests w1 = requests w
    /\ ((exists pb sb,
           Utf8.encode (main_payload w) = ok pb
           /\ Utf8.encode signing_secret = ok sb
           /\ main_prepare w
              = (ok (main_payload w,
                     str "sha256=" ++ hexlify (Rfc2104.hmac_sha256 sb pb)), w1))
        \/ (utf8_encodable (main_payload w) = false
            /\ main_prepare w = (raise UnicodeEncodeError, w1))).
Proof.
  destruct (utf8_encodable (main_payload w)) eqn:E.
  - pose proof (proj1 (encodable_ok _) E) as [pb Hpb].
    assert (Hsb : exists sb, Utf8.encode signing_secret = ok sb)
      by (eexists; vm_compute; reflexivity).
    destruct Hsb as [sb Hsb].
    assert (H : exists w1,
               main_prepare w
               = (ok (main_payload w,
                      str "sha256=" ++ hexlify (Rfc2104.hmac_sha256 sb pb)), w1)
               /\ frame w w1 /\ requests w1 = requests w).
    { main_prepare_prefix w. rewrite E.
      unfold bind at 1. rewrite print_ok by reflexivity.
      unfold bind at 1. rewrite (calculate_signature_ok _ _ _ _ _ Hpb Hsb).
      unfold bind at 1. rewrite print_ok.
      2:{ cbn [forallb printable]. rewrite signature_encodable. reflexivity. }
      unfold bind at 1. rewrite print_ok by reflexivity.
      eexists. split; [reflexivity |]. split; [repeat split | reflexivity]. }
    destruct H as (w1 & Hp & F & Q). exists w1.
    split; [exact F |]. split; [exact Q |]. left. exists pb, sb. auto.
  - assert (H : exists w1,
               main_prepare w = (raise UnicodeEncodeError, w1)
               /\ frame w w1 /\ requests w1 = requests w).
    { main_prepare_prefix w. rewrite E.
      eexists. split; [reflexivity |]. split; [repeat split | reflexivity]. }
    destruct H as (w1 & Hp & F & Q). exists w1.
    split; [exact F |]. split; [exact Q |]. right. auto.
Qed.

Lemma run_exit w : fst (run w) = exit_code (fst (main w)).
Proof. unfold run. destruct (main w). reflexivity. Qed.

Lemma run_world w : snd (run w) = snd (main w).
Proof. unfold run. destruct (main w). reflexivity. Qed.

(** The two branches of the conclusion of [main]. *)
Lemma main_conclude_true receipt w :
  truthy receipt = true ->
  main_conclude receipt w
  = match environ w "GITHUB_OUTPUT" with
    | Some path =>
        if writable w path
        then (raise (SystemExit 0), appended w path (receipt_print receipt))
        else (raise OSError, w)
    | None => (raise (SystemExit 0), w)
    end.
Proof.
  intros Ht. unfold main_conclude. rewrite Ht.
  unfold bind, environ_get, append_line, ret, sys_exit, throw.
  destruct (environ w "GITHUB_OUTPUT") as [path |];
    [destruct (writable w path) |]; reflexivity.
Qed.

Lemma main_conclude_false receipt w :
  truthy receipt = false -> main_conclude receipt w = (raise (SystemExit 1), w).
Proof. intros Ht. unfold main_conclude. rewrite Ht. reflexivity. Qed.

(** What [main] does with the value [submit_application] returned. *)
Lemma main_conclude_run receipt w :
  exists r w',
    main_conclude receipt w = (raise r, w') /\ requests w' = requests w
    /\ (exit_code (raise r) = 0 \/ exit_code (raise r) = 1)
    /\ (exit_code (raise r) = 0 <-> truthy receipt = true /\ output_writable w).
Proof.
  unfold main_conclude, output_writable.
  destruct (truthy receipt).
  - unfold bind at 1, environ_get.
    destruct (environ w "GITHUB_OUTPUT") as [path |] eqn:Eo.
    + unfold bind at 1, append_line.
      destruct (writable w path) eqn:Ew.
      * eexists _, _. split; [reflexivity |]. split; [reflexivity |].
        split; [left; reflexivity |]. split; [| reflexivity].
        intros _. split; [reflexivity |]. intros p [= <-]. exact Ew.
      * eexists _, _. split; [reflexivity |]. split; [reflexivity |].
        split; [right; reflexivity |]. split; [discriminate |].
        intros [_ H]. specialize (H path eq_refl). congruence.
    + unfold bind at 1, ret. eexists _, _.
      split; [reflexivity |]. split; [reflexivity |].
      split; [left; reflexivity |]. split; [| reflexivity].
      intros _. split; [reflexivity |]. discriminate.
  - eexists _, _. split; [reflexivity |]. split; [reflexivity |].
    split; [right; reflexivity |]. split; [discriminate |].
    intros [H _]. discriminate H.
Qed.

Lemma output_writable_frame w w' :
  frame w w' -> output_writable w -> output_writable w'.
Proof.
  unfold frame, output_writable. intros (_ & He & _ & Hw) H path.
  rewrite He, Hw. apply H.
Qed.

Lemma submission_result_raises o e :
  submission_result o = raise e -> e = UnicodeDecodeError \/ e = IncompleteRead.
Proof.
  destruct o as [[b |] | code reason [b |] |]; cbn [submission_result];
    try discriminate.
  - destruct (Utf8.decode b) eqn:Ed; [discriminate |].
    intros [= <-]. left. eapply decode_raises; [| exact Ed]. reflexivity.
  - intros [= <-]. right. reflexivity.
Qed.

(** The run of [main], spelled out: either the payload cannot be encoded and
    nothing is sent, or the request is sent and its outcome decides. *)
Lemma main_run w :
  (exists w1,
     main_prepare w = (raise UnicodeEncodeError, w1)
     /\ fst (main w) = raise UnicodeEncodeError
     /\ requests (snd (main w)) = requests w)
  \/ (exists pb signature w1 w2,
        Utf8.encode (main_payload w) = ok pb
        /\ main_prepare w = (ok (main_payload w, signature), w1)
        /\ frame w w2
        /\ submit_application (main_payload w) signature w1
           = (submission_result (endpoint w (submission_request pb signature)), w2)
        /\ requests w2 = requests w ++ [submission_request pb signature]
        /\ main w = match submission_result
                            (endpoint w (submission_request pb signature)) with
                    | ok receipt => main_conclude receipt w2
                    | raise e => (raise e, w2)
                    end).
Proof.
  destruct (main_prepare_run w) as (w1 & F1 & Q1 & [(pb & sb & Hpb & Hsb & Hp) | [Hu Hp]]).
  - right.
    set (signature := str "sha256=" ++ hexlify (Rfc2104.hmac_sha256 sb pb)) in *.
    destruct (submit_application_run (main_payload w) signature pb w1 Hpb)
      as (w2 & Hs & F2 & Q2).
    assert (Enet : endpoint w1 = endpoint w) by apply F1.
    rewrite Enet in Hs.
    exists pb, signature, w1, w2.
    split; [exact Hpb |]. split; [exact Hp |].
    split; [exact (frame_trans _ _ _ F1 F2) |].
    split; [exact Hs |]. split; [congruence |].
    unfold main. rewrite (bind_ok _ _ _ _ _ Hp). cbn [fst snd].
    unfold bind at 1. rewrite Hs.
    destruct (submission_result _); reflexivity.
  - left. exists w1. split; [exact Hp |].
    unfold main. rewrite (bind_raise _ _ _ _ _ Hp). cbn [fst snd].
    split; [reflexivity | exact Q1].
Qed.

Lemma output_writable_back w w' :
  frame w w' -> output_writable w' -> output_writable w.
Proof.
  unfold frame, output_writable. intros (_ & He & _ & Hw) H path.
  rewrite <- He, <- Hw. apply H.
Qed.

Lemma no_receipt_result o : no_receipt o -> submission_result o = ok PNone.
Proof.
  intros H. destruct H as [ | | code reason b text Hd | b text d Hd Hl Hf
                            | b e Hd | b text e Hd Hl | b text v Hd Hl Hv ];
    cbn [submission_result]; unfold receipt_of_body;
    try rewrite Hd; try rewrite Hl; try rewrite Hf; try reflexivity.
  destruct v; try reflexivity. exfalso. eapply Hv. reflexivity.
Qed.

(** A run whose request can only end without a receipt exits with 1. *)
Lemma run_without_receipt w :
  (forall req, submission_result (endpoint w req) = ok PNone) -> fst (run w) = 1.
Proof.
  intros Hall. rewrite run_exit.
  destruct (main_run w) as [(w1 & Hp & Hr & Hq)
                           | (pb & sig & w1 & w2 & Hpb & Hp & F & Hs & Q & Hm)].
  - rewrite Hr. reflexivity.
  - rewrite Hm, Hall. reflexivity.
Qed.

End Main.

(** * The claims of the specification *)

Section Claims.

Import JsonTokens.

(** C1. For every set of string inputs, the payload [create_payload]
    serializes consists of exactly the six keys [action_run_link], [email],
    [name], [repository_link], [resume_link], [timestamp], in that
    (alphabetical) order, each followed by one colon and its value, with one
    comma between items and no white space between tokens. *)
Theorem C1_payload_tokens
  (name email resume_link repository_link action_run_link : pystr) (w : World) :
  exists payload timestamp,
    fst (create_payload name email resume_link repository_link action_run_link w)
    = ok payload
    /\ tokens payload
       = Some [ LBrace;
                StringLit (str "action_run_link"); Colon; StringLit action_run_link;
                Comma;
                StringLit (str "email"); Colon; StringLit email;
                Comma;
                StringLit (str "name"); Colon; StringLit name;
                Comma;
                StringLit (str "repository_link"); Colon; StringLit repository_link;
                Comma;
                StringLit (str "resume_link"); Colon; StringLit resume_link;
                Comma;
                StringLit (str "timestamp"); Colon; StringLit timestamp;
                RBrace ]
    /\ strictly_increasing
         [ str "action_run_link"; str "email"; str "name";
           str "repository_link"; str "resume_link"; str "timestamp" ] = true.
Proof.
  rewrite create_payload_run. cbn [fst].
  eexists _, (timestamp_of (clock w (ticks w))).
  split; [reflexivity |]. split; [| reflexivity].
  unfold payload_of. rewrite tokens_dumps by discriminate. reflexivity.
Qed.

(** C6. For every set of string inputs, parsing the output of
    [create_payload] with [json.loads] gives back a dictionary holding the
    five input values under their keys, and the timestamp. *)
Theorem C6_parse_round_trip
  (name email resume_link repository_link action_run_link : pystr) (w : World) :
  exists payload timestamp,
    fst (create_payload name email resume_link repository_link action_run_link w)
    = ok payload
    /\ JsonDecoder.loads payload
       = ok (PDict [ (str "action_run_link", PStr action_run_link);
                     (str "email", PStr email);
                     (str "name", PStr name);
                     (str "repository_link", PStr repository_link);
                     (str "resume_link", PStr resume_link);
                     (str "timestamp", PStr timestamp) ]).
Proof.
  rewrite create_payload_run. cbn [fst].
  eexists _, (timestamp_of (clock w (ticks w))).
  split; [reflexivity |].
  unfold payload_of. rewrite loads_dumps. reflexivity.
Qed.

(** C7. The timestamp is read where it is embedded: parsing the text
    [create_payload] returns gives an object whose [timestamp] member is a
    string made from the reading of the clock at that call, so that a second
    call embeds the next reading; the string has the form
    [YYYY-MM-DDTHH:MM:SS.mmmZ], the digits being the UTC fields of the
    reading with the microseconds cut to milliseconds, ends in [Z], and
    [+00:00] does not occur in it. *)
Theorem C7_timestamp_fresh_utc_milliseconds
  (name email resume_link repository_link action_run_link : pystr) (w : World)
  (Hfirst : valid_datetime (clock w (ticks w)))
  (Hsecond : valid_datetime (clock w (S (ticks w)))) :
  exists payload1 payload2 ts1 ts2 w1 w2,
    create_payload name email resume_link repository_link action_run_link w
    = (ok payload1, w1)
    /\ create_payload name email resume_link repository_link action_run_link w1
       = (ok payload2, w2)
    /\ JsonDecoder.loads payload1
       = ok (PDict [ (str "action_run_link", PStr action_run_link);
                     (str "email", PStr email); (str "name", PStr name);
                     (str "repository_link", PStr repository_link);
                     (str "resume_link", PStr resume_link);
                     (str "timestamp", PStr ts1) ])
    /\ JsonDecoder.loads payload2
       = ok (PDict [ (str "action_run_link", PStr action_run_link);
                     (str "email", PStr email); (str "name", PStr name);
                     (str "repository_link", PStr repository_link);
                     (str "resume_link", PStr resume_link);
                     (str "timestamp", PStr ts2) ])
    /\ iso_milliseconds_z (clock w (ticks w)) ts1
    /\ iso_milliseconds_z (clock w (S (ticks w))) ts2
    /\ contains ts1 (str "+00:00") = false
    /\ contains ts2 (str "+00:00") = false.
Proof.
  destruct (timestamp_of_valid _ Hfirst) as [I1 N1].
  destruct (timestamp_of_valid _ Hsecond) as [I2 N2].
  eexists _, _, (timestamp_of (clock w (ticks w))),
          (timestamp_of (clock w (S (ticks w)))), _, _.
  split; [apply create_payload_run |].
  split; [apply create_payload_run |].
  split; [unfold payload_of; rewrite loads_dumps; reflexivity |].
  split; [unfold payload_of; rewrite loads_dumps; reflexivity |].
  repeat split; assumption.
Qed.

Lemma C7_witness :
  valid_datetime (clock accepting_world (ticks accepting_world))
  /\ valid_datetime (clock accepting_world (S (ticks accepting_world)))
  /\ exists payload1 payload2 ts1 ts2 w1 w2,
       create_payload applicant_name applicant_email applicant_resume
                      applicant_repository placeholder_run_link accepting_world
       = (ok payload1, w1)
       /\ create_payload applicant_name applicant_email applicant_resume
                         applicant_repository placeholder_run_link w1
          = (ok payload2, w2)
       /\ JsonDecoder.loads payload1
          = ok (PDict [ (str "action_run_link", PStr placeholder_run_link);
                        (str "email", PStr applicant_email);
                        (str "name", PStr applicant_name);
                        (str "repository_link", PStr applicant_repository);
                        (str "resume_link", PStr applicant_resume);
                        (str "timestamp", PStr ts1) ])
       /\ JsonDecoder.loads payload2
          = ok (PDict [ (str "action_run_link", PStr placeholder_run_link);
                        (str "email", PStr applicant_email);
                        (str "name", PStr applicant_name);
                        (str "repository_link", PStr applicant_repository);
                        (str "resume_link", PStr applicant_resume);
                        (str "timestamp", PStr ts2) ])
       /\ iso_milliseconds_z (clock accepting_world (ticks accepting_world)) ts1
       /\ iso_milliseconds_z (clock accepting_world (S (ticks accepting_world))) ts2
       /\ contains ts1 (str "+00:00") = false
       /\ contains ts2 (str "+00:00") = false.
Proof.
  assert (V0 : valid_datetime (clock accepting_world (ticks accepting_world)))
    by (unfold valid_datetime; cbn; repeat split; lia).
  assert (V1 : valid_datetime (clock accepting_world (S (ticks accepting_world))))
    by (unfold valid_datetime; cbn; repeat split; lia).
  split; [exact V0 |]. split; [exact V1 |].
  apply (C7_timestamp_fresh_utc_milliseconds
           applicant_name applicant_email applicant_resume applicant_repository
           placeholder_run_link accepting_world V0 V1).
Defined.

(** C2, as amended. For every payload and secret that can be encoded in
    UTF-8 (no lone surrogate), [calculate_signature] returns [sha256=]
    followed by sixty-four lowercase hexadecimal digits, which spell the
    HMAC-SHA256 of RFC 2104 with the UTF-8 bytes of the secret as key and
    those of the payload as message. *)
Theorem C2_signature_of_encodable_strings
  (payload secret : pystr) (w : World)
  (Hpayload : utf8_encodable payload = true)
  (Hsecret : utf8_encodable secret = true) :
  exists payload_bytes secret_bytes digest,
    Utf8.encode payload = ok payload_bytes
    /\ Utf8.encode secret = ok secret_bytes
    /\ digest = hexlify (Rfc2104.hmac_sha256 secret_bytes payload_bytes)
    /\ calculate_signature payload secret w = (ok (str "sha256=" ++ digest), w)
    /\ List.length digest = 64%nat
    /\ forallb is_lower_hex digest = true.
Proof.
  apply encodable_ok in Hpayload, Hsecret.
  destruct Hpayload as [pb Hpb]. destruct Hsecret as [sb Hsb].
  exists pb, sb, (hexlify (Rfc2104.hmac_sha256 sb pb)).
  split; [exact Hpb |]. split; [exact Hsb |]. split; [reflexivity |].
  split; [apply calculate_signature_ok; assumption |].
  split.
  - rewrite hexlify_length. unfold Rfc2104.hmac_sha256, Rfc2104.hmac.
    rewrite sha256_length. reflexivity.
  - apply hexlify_lower, sha256_bytes.
Qed.

Lemma C2_witness :
  utf8_encodable (dq "{'a':'b'}") = true
  /\ utf8_encodable (str "secret") = true
  /\ exists payload_bytes secret_bytes digest,
       Utf8.encode (dq "{'a':'b'}") = ok payload_bytes
       /\ Utf8.encode (str "secret") = ok secret_bytes
       /\ digest = hexlify (Rfc2104.hmac_sha256 secret_bytes payload_bytes)
       /\ calculate_signature (dq "{'a':'b'}") (str "secret") accepting_world
          = (ok (str "sha256=" ++ digest), accepting_world)
       /\ List.length digest = 64%nat
       /\ forallb is_lower_hex digest = true.
Proof.
  split; [reflexivity |]. split; [reflexivity |].
  apply (C2_signature_of_encodable_strings
           (dq "{'a':'b'}") (str "secret") accepting_world); reflexivity.
Defined.

(** C2, as stated, fails: on a payload holding a lone surrogate
    [calculate_signature] returns nothing, it raises [UnicodeEncodeError]. *)
Lemma C2_lone_surrogate_raises :
  fst (calculate_signature lone_surrogate (str "secret") accepting_world)
  = raise UnicodeEncodeError
  /\ ~ (exists tag,
          fst (calculate_signature lone_surrogate (str "secret") accepting_world)
          = ok tag).
Proof.
  split; [reflexivity |]. intros [tag H]. discriminate H.
Qed.

(** C3. Signing the payload [{"a":"b"}] with the secret [secret] gives the
    tag whose hexadecimal part is the HMAC-SHA256 of that key and message:
    the value OpenSSL and Python's [hmac] print for them, which is also the
    value of the definition of RFC 2104. *)
Theorem C3_known_vector (w : World) :
  calculate_signature (dq "{'a':'b'}") (str "secret") w
  = (ok (str "sha256=5782eb1e80a9c0cc789474a5ab9faf38384866cac1c0151663b2ec9d0082743e"), w)
  /\ hexlify (Rfc2104.hmac_sha256 (str "secret") (dq "{'a':'b'}"))
     = str "5782eb1e80a9c0cc789474a5ab9faf38384866cac1c0151663b2ec9d0082743e".
Proof.
  split.
  - unfold calculate_signature, bind, lift, ret.
    assert (E1 : Utf8.encode (dq "{'a':'b'}") = ok (dq "{'a':'b'}")) by reflexivity.
    assert (E2 : Utf8.encode (str "secret") = ok (str "secret")) by reflexivity.
    rewrite E1, E2. vm_compute. reflexivity.
  - vm_compute. reflexivity.
Qed.

(** C8. [calculate_signature] is deterministic: its outcome for a payload
    and a secret is the same in any two worlds in which it is called, and
    the call leaves the world as it was. *)
Theorem C8_signature_deterministic (payload secret : pystr) (w1 w2 : World) :
  fst (calculate_signature payload secret w1)
  = fst (calculate_signature payload secret w2)
  /\ snd (calculate_signature payload secret w1) = w1
  /\ snd (calculate_signature payload secret w2) = w2.
Proof.
  split; [| split; apply calculate_signature_world].
  unfold calculate_signature, bind, lift, ret.
  destruct (Utf8.encode payload); [| reflexivity].
  destruct (Utf8.encode secret); reflexivity.
Qed.

End Claims.

Section SubmissionClaims.

(** C4, as amended. If a request is sent and the endpoint answers it with a
    success status and the body [{"success":true,"receipt":"R123"}], then
    [submit_application] returns the string [R123], whatever [GITHUB_OUTPUT]
    says; the process exits with code 0 if [GITHUB_OUTPUT] is unset or
    names a file that can be opened for appending, and otherwise the
    [OSError] of [open] reaches the top level and the process exits with
    code 1. *)
Theorem C4_success_path (w : World)
  (Hnet : forall req, endpoint w req = Response (ReadOk body_R123))
  (Hsent : requests (snd (run w)) <> requests w) :
  (exists payload signature w1 w2,
     main_prepare w = (ok (payload, signature), w1)
     /\ submit_application payload signature w1 = (ok (PStr (str "R123")), w2))
  /\ (output_writable w -> fst (run w) = 0)
  /\ (~ output_writable w -> fst (main w) = raise OSError /\ fst (run w) = 1).
Proof.
  rewrite run_world in Hsent. rewrite run_exit.
  destruct (main_run w) as [(w1 & _ & _ & Hq)
                           | (pb & sig & w1 & w2 & Hpb & Hp & F & Hs & Q & Hm)].
  - contradiction.
  - rewrite Hnet in Hs, Hm.
    assert (R : submission_result (Response (ReadOk body_R123))
                = ok (PStr (str "R123"))) by (vm_compute; reflexivity).
    rewrite R in Hs, Hm. split.
    + exists (main_payload w), sig, w1, w2. split; assumption.
    + rewrite Hm, (main_conclude_true (PStr (str "R123")) w2 eq_refl).
      destruct F as (_ & Henv & _ & Hwr). rewrite Henv, Hwr.
      unfold output_writable.
      destruct (environ w "GITHUB_OUTPUT") as [path |].
      * destruct (writable w path) eqn:Ew; cbn [fst exit_code].
        -- split; [reflexivity |]. intros Hno. exfalso. apply Hno.
           intros p Hp'. injection Hp' as <-. exact Ew.
        -- split; [| split; reflexivity]. intros Hout.
           specialize (Hout path eq_refl). congruence.
      * cbn [fst exit_code]. split; [reflexivity |]. intros Hno. exfalso.
        apply Hno. intros p Hp'. discriminate Hp'.
Qed.

Lemma C4_witness :
  (forall req, endpoint accepting_world req = Response (ReadOk body_R123))
  /\ requests (snd (run accepting_world)) <> requests accepting_world
  /\ (exists payload signature w1 w2,
        main_prepare accepting_world = (ok (payload, signature), w1)
        /\ submit_application payload signature w1 = (ok (PStr (str "R123")), w2))
  /\ (output_writable accepting_world -> fst (run accepting_world) = 0)
  /\ (~ output_writable accepting_world ->
      fst (main accepting_world) = raise OSError /\ fst (run accepting_world) = 1).
Proof.
  assert (Hnet : forall req, endpoint accepting_world req = Response (ReadOk body_R123))
    by (intros req; reflexivity).
  assert (Hsent : requests (snd (run accepting_world)) <> requests accepting_world)
    by (vm_compute; discriminate).
  split; [exact Hnet |]. split; [exact Hsent |].
  exact (C4_success_path accepting_world Hnet Hsent).
Defined.

(** C4, as stated, fails: the request is sent and answered with the receipt
    [R123], but [GITHUB_OUTPUT] names a file that cannot be opened, and the
    process exits with code 1. *)
Lemma C4_unwritable_output_exits_1 :
  (forall req, endpoint unwritable_output_world req = Response (ReadOk body_R123))
  /\ requests (snd (run unwritable_output_world)) <> requests unwritable_output_world
  /\ fst (run unwritable_output_world) = 1
  /\ fst (run unwritable_output_world) <> 0.
Proof.
  split; [intros req; reflexivity |].
  split; [vm_compute; discriminate |].
  split; [vm_compute; reflexivity | vm_compute; discriminate].
Qed.

(** C5, as amended. The process exits with code 0 exactly when
    [submit_application] is reached and returns a value that counts as true
    (a receipt that is not empty) and the output line can be written;
    otherwise it exits with code 1. On a network failure, a non-success
    status whose body is readable UTF-8, a success flag that counts as
    false, or a malformed body, [submit_application] returns [None], and a
    run that meets such an outcome exits with code 1. *)
Theorem C5_exit_code_and_failures (w : World) :
  (fst (run w) = 0 <->
     exists payload signature w1 receipt w2,
       main_prepare w = (ok (payload, signature), w1)
       /\ submit_application payload signature w1 = (ok receipt, w2)
       /\ truthy receipt = true /\ output_writable w)
  /\ (fst (run w) = 0 \/ fst (run w) = 1)
  /\ (forall payload signature data,
        Utf8.encode payload = ok data ->
        no_receipt (endpoint w (submission_request data signature)) ->
        fst (submit_application payload signature w) = ok PNone)
  /\ ((forall req, no_receipt (endpoint w req)) -> fst (run w) = 1).
Proof.
  assert (Third : forall payload signature data,
            Utf8.encode payload = ok data ->
            no_receipt (endpoint w (submission_request data signature)) ->
            fst (submit_application payload signature w) = ok PNone).
  { intros payload signature data He Hn.
    destruct (submit_application_run payload signature data w He) as (w' & Hs & _).
    rewrite Hs. cbn [fst]. apply no_receipt_result. exact Hn. }
  assert (Fourth : (forall req, no_receipt (endpoint w req)) -> fst (run w) = 1).
  { intros Hall. apply run_without_receipt. intros req.
    apply no_receipt_result, Hall. }
  split; [| split; [| split; [exact Third | exact Fourth]]]; rewrite !run_exit;
    destruct (main_run w) as [(w1 & Hp & Hr & Hq)
                             | (pb & sig & w1 & w2 & Hpb & Hp & F & Hs & Q & Hm)].
  - rewrite Hr. cbn [exit_code]. split; [discriminate |].
    intros (payload & signature & w1' & receipt & w2' & Hp' & _).
    rewrite Hp in Hp'. discriminate Hp'.
  - destruct (submission_result _) as [receipt | e] eqn:Ho.
    + destruct (main_conclude_run receipt w2) as (r & w' & Hc & _ & _ & Hiff).
      rewrite Hm, Hc. cbn [fst]. rewrite Hiff. split.
      * intros [Ht Hw]. exists (main_payload w), sig, w1, receipt, w2.
        repeat split; try assumption.
        exact (output_writable_back _ _ F Hw).
      * intros (payload & signature & w1' & receipt' & w2' & Hp' & Hs' & Ht & Hw).
        rewrite Hp in Hp'. injection Hp' as <- <- <-.
        rewrite Hs in Hs'. injection Hs' as <- <-.
        split; [exact Ht | exact (output_writable_frame _ _ F Hw)].
    + rewrite Hm. cbn [fst].
      apply submission_result_raises in Ho.
      split.
      * destruct Ho as [-> | ->]; discriminate.
      * intros (payload & signature & w1' & receipt' & w2' & Hp' & Hs' & _).
        rewrite Hp in Hp'. injection Hp' as <- <- <-.
        rewrite Hs in Hs'. destruct Ho as [-> | ->]; discriminate Hs'.
  - rewrite Hr. right. reflexivity.
  - destruct (submission_result _) as [receipt | e] eqn:Ho.
    + destruct (main_conclude_run receipt w2) as (r & w' & Hc & _ & Hcode & _).
      rewrite Hm, Hc. exact Hcode.
    + rewrite Hm. cbn [fst]. right.
      apply submission_result_raises in Ho. destruct Ho as [-> | ->]; reflexivity.
Qed.

Lemma C5_witness :
  (forall req, no_receipt (endpoint server_error_world req))
  /\ fst (run server_error_world) = 1
  /\ (fst (run accepting_world) = 0 <->
        exists payload signature w1 receipt w2,
          main_prepare accepting_world = (ok (payload, signature), w1)
          /\ submit_application payload signature w1 = (ok receipt, w2)
          /\ truthy receipt = true /\ output_writable accepting_world).
Proof.
  assert (Hall : forall req, no_receipt (endpoint server_error_world req)).
  { intros req. apply (non_success_status 500 _ _ (str "oops")). reflexivity. }
  split; [exact Hall |].
  split.
  - exact (proj2 (proj2 (proj2 (C5_exit_code_and_failures server_error_world))) Hall).
  - exact (proj1 (C5_exit_code_and_failures accepting_world)).
Defined.

(** C5, as stated, fails: the endpoint accepts the submission with an empty
    receipt, [submit_application] returns it (a receipt is obtained, not
    [None]), and the process exits with code 1. *)
Lemma C5_empty_receipt_exits_1 :
  receipt_obtained empty_receipt_world
  /\ fst (run empty_receipt_world) = 1
  /\ ~ (fst (run empty_receipt_world) = 0 <-> receipt_obtained empty_receipt_world).
Proof.
  assert (R : receipt_obtained empty_receipt_world).
  { unfold receipt_obtained. eexists _, _, _, _, _.
    split; [vm_compute; reflexivity |].
    split; [vm_compute; reflexivity | discriminate]. }
  assert (E : fst (run empty_receipt_world) = 1) by (vm_compute; reflexivity).
  split; [exact R |]. split; [exact E |].
  intros [_ H]. apply H in R. rewrite E in R. discriminate R.
Qed.

(** C9 does not hold of the code: a response with an error status whose body
    is not UTF-8 makes the first [except] clause raise [UnicodeDecodeError]
    while it prints the body, and no clause of the statement takes an
    exception raised inside a clause. *)
Theorem C9_error_body_escapes :
  exists payload signature w1 w2,
    main_prepare latin1_error_world = (ok (payload, signature), w1)
    /\ submit_application payload signature w1 = (raise UnicodeDecodeError, w2)
    /\ fst (run latin1_error_world) = 1.
Proof.
  eexists _, _, _, _.
  split; [vm_compute; reflexivity |].
  split; [vm_compute; reflexivity | vm_compute; reflexivity].
Qed.

(** C10. If the body of a success response is valid JSON, an object whose
    [success] member counts as true and which has no [receipt] member, then
    the lookup of the receipt raises [KeyError] inside the [try] statement,
    the second [except] clause takes it, [submit_application] returns [None]
    and the process exits with code 1. *)
Theorem C10_missing_receipt_is_absorbed
  (w : World) (body : bytes) (text : pystr) (d : dict) (success : pyval)
  (Hnet : forall req, endpoint w req = Response (ReadOk body))
  (Hdecode : Utf8.decode body = ok text)
  (Hjson : JsonDecoder.loads text = ok (PDict d))
  (Hsuccess : dict_get d (str "success") = Some success)
  (Htruthy : truthy success = true)
  (Hreceipt : dict_get d (str "receipt") = None) :
  (forall payload signature data,
     Utf8.encode payload = ok data ->
     fst (submit_attempt (submission_request data signature) w) = raise KeyError
     /\ fst (submit_application payload signature w) = ok PNone)
  /\ fst (run w) = 1.
Proof.
  assert (R : receipt_of_body body = PNone).
  { unfold receipt_of_body. rewrite Hdecode, Hjson, Hsuccess, Htruthy, Hreceipt.
    reflexivity. }
  split.
  - intros payload signature data He. split.
    + unfold submit_attempt, bind at 1, urlopen. rewrite Hnet.
      unfold bind at 1, read, ret.
      unfold bind at 1, lift at 1. rewrite Hdecode.
      unfold bind at 1, lift at 1. rewrite Hjson.
      unfold bind at 1. cbn [py_get ret]. rewrite Hsuccess, Htruthy.
      unfold bind at 1. cbn [py_getitem]. rewrite Hreceipt. reflexivity.
    + destruct (submit_application_run payload signature data w He) as (w' & Hs & _).
      rewrite Hs, Hnet. cbn [fst submission_result]. rewrite R. reflexivity.
  - apply run_without_receipt. intros req. rewrite Hnet.
    cbn [submission_result]. rewrite R. reflexivity.
Qed.

Lemma C10_witness :
  (forall req, endpoint missing_receipt_world req
               = Response (ReadOk (dq "{'success':true}")))
  /\ Utf8.decode (dq "{'success':true}") = ok (dq "{'success':true}")
  /\ JsonDecoder.loads (dq "{'success':true}") = ok (PDict [(str "success", PBool true)])
  /\ (forall payload signature data,
        Utf8.encode payload = ok data ->
        fst (submit_attempt (submission_request data signature) missing_receipt_world)
        = raise KeyError
        /\ fst (submit_application payload signature missing_receipt_world) = ok PNone)
  /\ fst (run missing_receipt_world) = 1.
Proof.
  assert (Hnet : forall req, endpoint missing_receipt_world req
                             = Response (ReadOk (dq "{'success':true}")))
    by (intros req; reflexivity).
  assert (Hd : Utf8.decode (dq "{'success':true}") = ok (dq "{'success':true}"))
    by reflexivity.
  assert (Hj : JsonDecoder.loads (dq "{'success':true}")
               = ok (PDict [(str "success", PBool true)])) by reflexivity.
  split; [exact Hnet |]. split; [exact Hd |]. split; [exact Hj |].
  exact (C10_missing_receipt_is_absorbed missing_receipt_world _ _ _ (PBool true)
           Hnet Hd Hj eq_refl eq_refl eq_refl).
Defined.

End SubmissionClaims.


(** * Further properties of the program *)

(** ** UTF-8: decoding what was encoded *)

Section Utf8RoundTrip.

Ltac div_lia := zify; Z.to_euclidean_division_equations; lia.

Lemma ltb_false a b : b <= a -> (a <? b) = false.
Proof. intros H. apply N.ltb_ge. exact H. Qed.

Lemma ltb_true a b : a < b -> (a <? b) = true.
Proof. intros H. apply N.ltb_lt. exact H. Qed.

Lemma is_cont_low x : x < 0x40 -> Utf8.is_cont (0x80 + x) = true.
Proof.
  intros H. unfold Utf8.is_cont. apply andb_true_intro.
  split; apply N.leb_le; lia.
Qed.

Lemma accept_scalar lo c :
  lo <= c -> Utf8.is_surrogate c = false -> c < 0x110000 -> Utf8.accept lo c = true.
Proof.
  intros H1 H2 H3. unfold Utf8.accept. rewrite H2.
  apply andb_true_intro. split; [apply andb_true_intro; split |].
  - apply N.leb_le. exact H1.
  - reflexivity.
  - apply N.ltb_lt. exact H3.
Qed.

Lemma not_surrogate_below c : c < 0xD800 -> Utf8.is_surrogate c = false.
Proof.
  intros H. unfold Utf8.is_surrogate. apply andb_false_intro1. apply N.leb_gt. exact H.
Qed.

(** One encoded character at the head of a byte string decodes to itself. *)
Lemma decode_encode_char c bs t :
  Utf8.encode_char c = Some bs ->
  Utf8.decode (bs ++ t) = rbind (Utf8.decode t) (fun s => ok (c :: s)).
Proof.
  unfold Utf8.encode_char.
  destruct (N.ltb_spec c 0x80) as [H1 | H1].
  { intros E; apply some_inj in E; subst bs. cbn [app Utf8.decode].
    rewrite (ltb_true _ _ H1). reflexivity. }
  destruct (N.ltb_spec c 0x800) as [H2 | H2].
  { intros E; apply some_inj in E; subst bs. cbn [app Utf8.decode].
    rewrite (ltb_false (0xC0 + c / 0x40) 0x80) by div_lia.
    rewrite (ltb_false (0xC0 + c / 0x40) 0xC0) by div_lia.
    rewrite (ltb_true (0xC0 + c / 0x40) 0xE0) by div_lia.
    replace ((0xC0 + c / 0x40 - 0xC0) * 0x40 + (0x80 + c mod 0x40 - 0x80))
      with c by div_lia.
    rewrite is_cont_low by div_lia.
    rewrite accept_scalar; [reflexivity | lia | apply not_surrogate_below; lia | lia]. }
  destruct (Utf8.is_surrogate c) eqn:Hs; [discriminate |].
  destruct (N.ltb_spec c 0x10000) as [H3 | H3].
  { intros E; apply some_inj in E; subst bs. cbn [app Utf8.decode].
    rewrite (ltb_false (0xE0 + c / 0x1000) 0x80) by div_lia.
    rewrite (ltb_false (0xE0 + c / 0x1000) 0xC0) by div_lia.
    rewrite (ltb_false (0xE0 + c / 0x1000) 0xE0) by div_lia.
    rewrite (ltb_true (0xE0 + c / 0x1000) 0xF0) by div_lia.
    replace ((0xE0 + c / 0x1000 - 0xE0) * 0x1000
             + (0x80 + (c / 0x40) mod 0x40 - 0x80) * 0x40
             + (0x80 + c mod 0x40 - 0x80))
      with c by div_lia.
    rewrite !is_cont_low by div_lia.
    rewrite accept_scalar; [reflexivity | lia | exact Hs | lia]. }
  destruct (N.ltb_spec c 0x110000) as [H4 | H4]; [| discriminate].
  intros E; apply some_inj in E; subst bs. cbn [app Utf8.decode].
  rewrite (ltb_false (0xF0 + c / 0x40000) 0x80) by div_lia.
  rewrite (ltb_false (0xF0 + c / 0x40000) 0xC0) by div_lia.
  rewrite (ltb_false (0xF0 + c / 0x40000) 0xE0) by div_lia.
  rewrite (ltb_false (0xF0 + c / 0x40000) 0xF0) by div_lia.
  rewrite (ltb_true (0xF0 + c / 0x40000) 0xF8) by div_lia.
  replace ((0xF0 + c / 0x40000 - 0xF0) * 0x40000
           + (0x80 + (c / 0x1000) mod 0x40 - 0x80) * 0x1000
           + (0x80 + (c / 0x40) mod 0x40 - 0x80) * 0x40
           + (0x80 + c mod 0x40 - 0x80))
    with c by div_lia.
  rewrite !is_cont_low by div_lia.
  rewrite accept_scalar; [reflexivity | lia | exact Hs | lia].
Qed.

(** [s.encode('utf-8').decode('utf-8')] is [s]. *)
Lemma decode_encode s : forall b, Utf8.encode s = ok b -> Utf8.decode b = ok s.
Proof.
  induction s as [| c s IH]; intros b H; cbn [Utf8.encode] in H.
  - injection H as <-. reflexivity.
  - destruct (Utf8.encode_char c) as [bs |] eqn:Ec; [| discriminate H].
    destruct (Utf8.encode s) as [t |]; [| discriminate H].
    injection H as <-. rewrite (decode_encode_char _ _ _ Ec), (IH t eq_refl).
    reflexivity.
Qed.

End Utf8RoundTrip.

(** ** The payload text *)

Section PayloadText.

Import JsonEncoder.

Lemma escape_char_encodable c r :
  utf8_encodable (escape_char c ++ r) = true <->
  Utf8.encode_char c <> None /\ utf8_encodable r = true.
Proof.
  assert (Low : c < 0x80 -> Utf8.encode_char c <> None).
  { intros H. unfold Utf8.encode_char. apply N.ltb_lt in H. rewrite H. discriminate. }
  assert (Two : forall a b, a < 0x80 -> b < 0x80 -> c < 0x80 ->
            (utf8_encodable ([a; b] ++ r) = true <->
             Utf8.encode_char c <> None /\ utf8_encodable r = true)).
  { intros a b Ha Hb Hc. cbn [app]. rewrite !encodable_cons.
    unfold Utf8.encode_char at 1 2. apply N.ltb_lt in Ha, Hb.
    rewrite Ha, Hb. specialize (Low Hc). intuition discriminate. }
  unfold escape_char.
  destruct (N.eqb_spec c 34) as [-> | H34]; [apply Two; lia |].
  destruct (N.eqb_spec c 92) as [-> | H92]; [apply Two; lia |].
  destruct (N.eqb_spec c 10) as [-> | H10]; [apply Two; lia |].
  destruct (N.eqb_spec c 13) as [-> | H13]; [apply Two; lia |].
  destruct (N.eqb_spec c 9) as [-> | H9]; [apply Two; lia |].
  destruct (N.eqb_spec c 8) as [-> | H8]; [apply Two; lia |].
  destruct (N.eqb_spec c 12) as [-> | H12]; [apply Two; lia |].
  destruct (N.ltb_spec c 0x20) as [Hlt | Hge].
  - change ([92; 117; 48; 48; hex_digit (c / 16); hex_digit (c mod 16)] ++ r)
      with ([92; 117; 48; 48] ++ [hex_digit (c / 16); hex_digit (c mod 16)] ++ r).
    rewrite encodable_app.
    assert (Hq : c / 16 < 16) by (apply N.Div0.div_lt_upper_bound; lia).
    assert (Hr : c mod 16 < 16) by (apply N.mod_lt; lia).
    assert (Hd : forall d, d < 16 -> hex_digit d < 0x80).
    { intros d Hd. unfold hex_digit. destruct (d <? 10); lia. }
    rewrite (Two _ _ (Hd _ Hq) (Hd _ Hr)) by lia.
    assert (E : utf8_encodable [92; 117; 48; 48] = true) by reflexivity.
    tauto.
  - cbn [app]. apply encodable_cons.
Qed.

Lemma escaped_encodable s r :
  utf8_encodable (flat_map escape_char s ++ r) = true <->
  utf8_encodable s = true /\ utf8_encodable r = true.
Proof.
  induction s as [| c s IH]; cbn [flat_map app].
  - split; [intros H; split; [reflexivity | exact H] | intros [_ H]; exact H].
  - rewrite <- app_assoc, escape_char_encodable, IH, encodable_cons. tauto.
Qed.

Lemma basestring_encodable s r :
  utf8_encodable (encode_basestring s ++ r) = true <->
  utf8_encodable s = true /\ utf8_encodable r = true.
Proof.
  unfold encode_basestring. cbn [app]. rewrite <- app_assoc.
  rewrite encodable_cons, escaped_encodable. cbn [app]. rewrite encodable_cons.
  assert (E : Utf8.encode_char 34 <> None) by discriminate. tauto.
Qed.

Lemma items_encodable d : forall first r,
  utf8_encodable (encode_items (str ",") (str ":") first d ++ r) = true <->
  Forall pair_encodable d /\ utf8_encodable r = true.
Proof.
  induction d as [| [k v] d IH]; intros first r.
  - cbn [encode_items app]. split.
    + intros H. split; [constructor | exact H].
    + intros [_ H]. exact H.
  - rewrite encode_items_cons.
    assert (S : utf8_encodable
                  (encode_basestring k ++ 58 :: encode_basestring v
                   ++ encode_items (str ",") (str ":") false d ++ r) = true
                <-> Forall pair_encodable ((k, v) :: d) /\ utf8_encodable r = true).
    { rewrite basestring_encodable, encodable_cons, basestring_encodable, IH.
      assert (E : Utf8.encode_char 58 <> None) by discriminate.
      split.
      - intros (Hk & _ & Hv & Hd & Hr). split; [| exact Hr].
        constructor; [split; assumption | exact Hd].
      - intros [Hall Hr]. inversion Hall as [| x l [Hk Hv] Hd]; subst.
        repeat split; assumption. }
    destruct first; cbn [app]; [exact S |].
    rewrite encodable_cons, S.
    assert (E : Utf8.encode_char 44 <> None) by discriminate. tauto.
Qed.

(** The text [dumps] writes can be encoded in UTF-8 exactly when every key
    and value can. *)
Lemma dumps_encodable d :
  utf8_encodable (dumps d (str ",") (str ":")) = true <-> Forall pair_encodable d.
Proof.
  destruct d as [| p d].
  - split; [constructor | reflexivity].
  - unfold dumps. rewrite encodable_cons, items_encodable.
    assert (E : Utf8.encode_char 123 <> None) by discriminate.
    assert (E' : utf8_encodable [125] = true) by reflexivity.
    tauto.
Qed.

Lemma payload_of_encodable name email resume_link repository_link link ts :
  utf8_encodable (payload_of name email resume_link repository_link link ts) = true
  <-> utf8_encodable name = true /\ utf8_encodable email = true
      /\ utf8_encodable resume_link = true /\ utf8_encodable repository_link = true
      /\ utf8_encodable link = true /\ utf8_encodable ts = true.
Proof.
  unfold payload_of. rewrite dumps_encodable. split.
  - intros H.
    repeat match goal with
           | H : Forall _ (_ :: _) |- _ => inversion H; clear H; subst
           end.
    repeat match goal with
           | H : pair_encodable _ |- _ => destruct H as [_ ?]
           end.
    cbn [snd] in *. tauto.
  - intros (H1 & H2 & H3 & H4 & H5 & H6).
    repeat (constructor; [split; [reflexivity | assumption] |]). constructor.
Qed.

End PayloadText.

Section TimestampText.

Lemma ascii_text_app a b : ascii_text a -> ascii_text b -> ascii_text (a ++ b).
Proof. intros Ha Hb. apply Forall_app. split; assumption. Qed.

Lemma dec_digits_ascii f : forall n, ascii_text (dec_digits f n).
Proof.
  induction f as [| f IH]; intros n; cbn [dec_digits]; [constructor |].
  constructor.
  - pose proof (N.mod_lt n 10 ltac:(lia)). lia.
  - destruct (n / 10 =? 0); [constructor | apply IH].
Qed.

Lemma format_d_ascii width n : ascii_text (format_d width n).
Proof.
  unfold format_d, decimal. apply ascii_text_app.
  - apply Forall_forall. intros c Hc. apply repeat_spec in Hc. subst c. lia.
  - apply Forall_rev, dec_digits_ascii.
Qed.

Lemma replace_from_ascii old new : ascii_text new ->
  forall s skip, ascii_text s -> ascii_text (replace_from old new skip s).
Proof.
  intros Hn s. induction s as [| c r IH]; intros skip Hs; cbn [replace_from];
    [constructor |].
  inversion Hs as [| x l Hc Hr]; subst.
  destruct skip as [| k]; [| apply IH; exact Hr].
  destruct (strip_prefix old (c :: r)).
  - apply ascii_text_app; [exact Hn | apply IH; exact Hr].
  - constructor; [exact Hc | apply IH; exact Hr].
Qed.

(** The timestamp is ASCII whatever the clock reads. *)
Lemma timestamp_of_ascii d : ascii_text (timestamp_of d).
Proof.
  unfold timestamp_of, str_replace.
  change (str "+00:00") with (43 :: str "00:00").
  apply replace_from_ascii.
  - repeat constructor.
  - unfold isoformat_milliseconds.
    repeat (apply ascii_text_app; [first [apply format_d_ascii | repeat constructor] |]).
    repeat constructor.
Qed.

Lemma timestamp_of_encodable d : utf8_encodable (timestamp_of d) = true.
Proof. apply ascii_encodable, timestamp_of_ascii. Qed.

End TimestampText.

Section ControlCharacters.

Import JsonEncoder.

Lemma no_control_app a b : no_control a -> no_control b -> no_control (a ++ b).
Proof. intros Ha Hb. apply Forall_app. split; assumption. Qed.

Lemma hex_digit_printable d : 0x20 <= hex_digit d.
Proof. unfold hex_digit. destruct (d <? 10); lia. Qed.

Lemma escape_char_no_control c : no_control (escape_char c).
Proof.
  unfold escape_char, no_control.
  repeat match goal with
         | |- Forall _ (if ?b then _ else _) => destruct b eqn:?
         end;
    try (repeat (apply Forall_cons; [first [lia | apply hex_digit_printable] |]);
         apply Forall_nil).
  apply Forall_cons; [| apply Forall_nil].
  match goal with H : (c <? 0x20) = false |- _ => apply N.ltb_ge in H; exact H end.
Qed.

Lemma basestring_no_control s : no_control (encode_basestring s).
Proof.
  unfold encode_basestring. apply Forall_cons; [lia |].
  apply no_control_app; [| apply Forall_cons; [lia | apply Forall_nil]].
  induction s as [| c s IH]; cbn [flat_map]; [apply Forall_nil |].
  apply no_control_app; [apply escape_char_no_control | exact IH].
Qed.

Lemma items_no_control d : forall first,
  no_control (encode_items (str ",") (str ":") first d).
Proof.
  induction d as [| [k v] d IH]; intros first; cbn [encode_items];
    [apply Forall_nil |].
  repeat apply no_control_app;
    try apply basestring_no_control; try apply IH.
  - destruct first; [apply Forall_nil | apply Forall_cons; [cbn; lia | apply Forall_nil]].
  - apply Forall_cons; [cbn; lia | apply Forall_nil].
Qed.

(** Text written by [dumps] has no control character: no line break, no
    tab, no NUL; it is a single line. *)
Lemma dumps_no_control d : no_control (dumps d (str ",") (str ":")).
Proof.
  destruct d as [| p d]; unfold dumps.
  - repeat (apply Forall_cons; [cbn; lia |]). apply Forall_nil.
  - apply Forall_cons; [lia |].
    apply no_control_app; [apply items_no_control |].
    apply Forall_cons; [lia | apply Forall_nil].
Qed.

End ControlCharacters.

(** ** [create_payload] and [calculate_signature] together *)

Section PayloadAndSignature.

Lemma loads_payload_of name email resume_link repository_link link ts :
  JsonDecoder.loads (payload_of name email resume_link repository_link link ts)
  = ok (PDict [ (str "action_run_link", PStr link); (str "email", PStr email);
                (str "name", PStr name);
                (str "repository_link", PStr repository_link);
                (str "resume_link", PStr resume_link);
                (str "timestamp", PStr ts) ]).
Proof. unfold payload_of. rewrite loads_dumps. reflexivity. Qed.

(** X1. The serialization is unambiguous: two calls of [create_payload], in
    whatever worlds, that return the same text were given the same five
    fields and embedded the same timestamp. *)
Theorem create_payload_injective
  (name email resume_link repository_link link : pystr)
  (name' email' resume_link' repository_link' link' : pystr) (w w' : World)
  (Hsame : fst (create_payload name email resume_link repository_link link w)
           = fst (create_payload name' email' resume_link' repository_link' link' w')) :
  name = name' /\ email = email' /\ resume_link = resume_link'
  /\ repository_link = repository_link' /\ link = link'
  /\ timestamp_of (clock w (ticks w)) = timestamp_of (clock w' (ticks w')).
Proof.
  rewrite !create_payload_run in Hsame. cbn [fst] in Hsame.
  assert (E : payload_of name email resume_link repository_link link
                (timestamp_of (clock w (ticks w)))
              = payload_of name' email' resume_link' repository_link' link'
                  (timestamp_of (clock w' (ticks w')))) by congruence.
  apply (f_equal JsonDecoder.loads) in E.
  rewrite !loads_payload_of in E.
  assert (L : forall a b a' b' : pystr, forall l l' : dict,
            (a, PStr b) :: l = (a', PStr b') :: l' -> b = b' /\ l = l')
    by (intros; split; congruence).
  assert (D : forall d d' : dict, ok (PDict d) = ok (PDict d') -> d = d')
    by (intros; congruence).
  apply D in E.
  repeat match type of E with
         | _ :: _ = _ :: _ =>
             let H := fresh "F" in apply L in E; destruct E as [H E]
         end.
  repeat split; assumption.
Qed.

Lemma create_payload_injective_witness :
  fst (create_payload applicant_name applicant_email applicant_resume
                      applicant_repository placeholder_run_link accepting_world)
  = fst (create_payload applicant_name applicant_email applicant_resume
                        applicant_repository placeholder_run_link
                        missing_receipt_world)
  /\ (applicant_name = applicant_name /\ applicant_email = applicant_email
      /\ applicant_resume = applicant_resume
      /\ applicant_repository = applicant_repository
      /\ placeholder_run_link = placeholder_run_link
      /\ timestamp_of (clock accepting_world (ticks accepting_world))
         = timestamp_of (clock missing_receipt_world (ticks missing_receipt_world))).
Proof.
  assert (H : fst (create_payload applicant_name applicant_email applicant_resume
                     applicant_repository placeholder_run_link accepting_world)
              = fst (create_payload applicant_name applicant_email applicant_resume
                       applicant_repository placeholder_run_link
                       missing_receipt_world)) by reflexivity.
  split; [exact H |].
  exact (create_payload_injective _ _ _ _ _ _ _ _ _ _ _ _ H).
Defined.

(** X2. The text [create_payload] returns has no character below the space,
    whatever the inputs hold: line feeds, carriage returns, tabs, NUL and
    the other control characters of ASCII are escaped. (The line
    separators beyond ASCII, such as U+2028, are not below the space and
    are copied as they are.) *)
Theorem create_payload_no_ascii_control
  (name email resume_link repository_link link : pystr) (w : World) :
  exists payload,
    fst (create_payload name email resume_link repository_link link w) = ok payload
    /\ no_control payload.
Proof.
  rewrite create_payload_run. cbn [fst]. eexists. split; [reflexivity |].
  unfold payload_of. apply dumps_no_control.
Qed.

(** X3. The payload of [create_payload] can be signed exactly when the five
    inputs and the secret can be encoded in UTF-8: a lone surrogate in any
    of them makes [calculate_signature] raise, and nothing else does. *)
Theorem payload_signable_iff_inputs_encodable
  (name email resume_link repository_link link secret : pystr) (w : World) :
  exists payload w1,
    create_payload name email resume_link repository_link link w = (ok payload, w1)
    /\ ((exists tag, fst (calculate_signature payload secret w1) = ok tag)
        <-> utf8_encodable name = true /\ utf8_encodable email = true
            /\ utf8_encodable resume_link = true
            /\ utf8_encodable repository_link = true
            /\ utf8_encodable link = true /\ utf8_encodable secret = true).
Proof.
  rewrite create_payload_run. eexists _, _. split; [reflexivity |].
  set (payload := payload_of _ _ _ _ _ _).
  assert (P : utf8_encodable payload = true <->
              utf8_encodable name = true /\ utf8_encodable email = true
              /\ utf8_encodable resume_link = true
              /\ utf8_encodable repository_link = true
              /\ utf8_encodable link = true).
  { subst payload. rewrite payload_of_encodable.
    pose proof (timestamp_of_encodable (clock w (ticks w))). tauto. }
  split.
  - intros [tag H]. unfold calculate_signature, bind, lift, ret in H.
    unfold utf8_encodable in P at 1. unfold utf8_encodable at 6.
    destruct (Utf8.encode payload); [| discriminate H].
    destruct (Utf8.encode secret); [| discriminate H].
    tauto.
  - intros (H1 & H2 & H3 & H4 & H5 & H6).
    assert (Hp : utf8_encodable payload = true) by tauto.
    apply encodable_ok in Hp, H6. destruct Hp as [pb Hpb]. destruct H6 as [sb Hsb].
    eexists. rewrite (calculate_signature_ok _ _ _ _ _ Hpb Hsb). reflexivity.
Qed.

Lemma payload_signable_witness :
  exists tag,
    fst (calculate_signature
           (payload_of applicant_name applicant_email applicant_resume
                       applicant_repository placeholder_run_link
                       (timestamp_of (sample_clock 0)))
           signing_secret (ticked accepting_world)) = ok tag.
Proof.
  destruct (payload_signable_iff_inputs_encodable
              applicant_name applicant_email applicant_resume applicant_repository
              placeholder_run_link signing_secret accepting_world)
    as (payload & w1 & Hrun & Hiff).
  rewrite create_payload_run in Hrun. injection Hrun as <- <-.
  apply (proj2 Hiff). repeat split; reflexivity.
Defined.

Lemma encode_app s t :
  Utf8.encode (s ++ t)
  = rbind (Utf8.encode s) (fun a => rbind (Utf8.encode t) (fun b => ok (a ++ b))).
Proof.
  induction s as [| c s IH]; cbn [app Utf8.encode rbind].
  - destruct (Utf8.encode t); reflexivity.
  - destruct (Utf8.encode_char c) as [bs |]; [| reflexivity].
    rewrite IH. destruct (Utf8.encode s); cbn [rbind]; [| reflexivity].
    destruct (Utf8.encode t); cbn [rbind]; [| reflexivity].
    rewrite app_assoc. reflexivity.
Qed.

Lemma ljust_trailing_zero key width :
  (List.length key < width)%nat ->
  Hmac.ljust (key ++ [0]) width = Hmac.ljust key width.
Proof.
  intros H. unfold Hmac.ljust. rewrite length_app. cbn [List.length].
  rewrite <- app_assoc. f_equal. cbn [app].
  replace (width - List.length key)%nat
    with (S (width - (List.length key + 1)))%nat by lia.
  reflexivity.
Qed.

(** X4. A NUL character appended to a secret of fewer than 64 bytes changes no
    signature: the [hmac] module pads the key with zero bytes to the block
    size, so both secrets give the same key block. *)
Theorem signature_ignores_trailing_nul
  (payload secret : pystr) (secret_bytes : bytes) (w : World)
  (Hsecret : Utf8.encode secret = ok secret_bytes)
  (Hshort : (List.length secret_bytes < 64)%nat) :
  calculate_signature payload (secret ++ [0]) w = calculate_signature payload secret w.
Proof.
  unfold calculate_signature, bind, lift, ret.
  destruct (Utf8.encode payload) as [pb |]; [| reflexivity].
  assert (E0 : Utf8.encode (secret ++ [0]) = ok (secret_bytes ++ [0]))
    by (rewrite encode_app, Hsecret; reflexivity).
  rewrite E0, Hsecret.
  unfold Hmac.hexdigest, Hmac.digest, Hmac.new.
  assert (E1 : (Hashlib.block_size <? List.length (secret_bytes ++ [0%N]))%nat = false).
  { apply Nat.ltb_ge. rewrite length_app. cbn. unfold Hashlib.block_size. lia. }
  assert (E2 : (Hashlib.block_size <? List.length secret_bytes)%nat = false).
  { apply Nat.ltb_ge. unfold Hashlib.block_size. lia. }
  rewrite E1, E2, ljust_trailing_zero by exact Hshort. reflexivity.
Qed.

Lemma signature_ignores_trailing_nul_witness :
  Utf8.encode signing_secret = ok signing_secret
  /\ (List.length signing_secret < 64)%nat
  /\ calculate_signature (dq "{'a':'b'}") (signing_secret ++ [0]) accepting_world
     = calculate_signature (dq "{'a':'b'}") signing_secret accepting_world.
Proof.
  assert (H1 : Utf8.encode signing_secret = ok signing_secret) by reflexivity.
  assert (H2 : (List.length signing_secret < 64)%nat) by (cbn; lia).
  split; [exact H1 |]. split; [exact H2 |].
  exact (signature_ignores_trailing_nul (dq "{'a':'b'}") signing_secret
           signing_secret accepting_world H1 H2).
Defined.

End PayloadAndSignature.

(** ** What the functions leave untouched *)

Section Keeps.

Context {B : Type} (obs : World -> B).

Lemma keeps_ret {A} (a : A) : keeps obs (ret a).
Proof. intros w. reflexivity. Qed.

Lemma keeps_throw {A} (e : exn) : keeps obs (@throw A e).
Proof. intros w. reflexivity. Qed.

Lemma keeps_lift {A} (r : result A) : keeps obs (lift r).
Proof. intros w. reflexivity. Qed.

Lemma keeps_bind {A C} (c : M A) (k : A -> M C) :
  keeps obs c -> (forall a, keeps obs (k a)) -> keeps obs (bind c k).
Proof.
  intros Hc Hk w. unfold bind. specialize (Hc w).
  destruct (c w) as [[a | e] w1]; cbn [snd] in *.
  - rewrite Hk. exact Hc.
  - exact Hc.
Qed.

Lemma keeps_try {A} (body : M A) (handler : exn -> option (M A)) :
  keeps obs body -> (forall e h, handler e = Some h -> keeps obs h) ->
  keeps obs (try_except body handler).
Proof.
  intros Hb Hh w. unfold try_except. specialize (Hb w).
  destruct (body w) as [[a | e] w1]; cbn [snd] in *; [exact Hb |].
  destruct (handler e) as [h |] eqn:E; cbn [snd]; [| exact Hb].
  rewrite (Hh e h E). exact Hb.
Qed.

Lemma keeps_environ_get key : keeps obs (environ_get key).
Proof. intros w. reflexivity. Qed.

Lemma keeps_read body : keeps obs (read body).
Proof. destruct body; intros w; reflexivity. Qed.

Lemma keeps_py_get v key : keeps obs (py_get v key).
Proof. destruct v; intros w; reflexivity. Qed.

Lemma keeps_py_getitem v key : keeps obs (py_getitem v key).
Proof.
  destruct v; try (intros w; reflexivity).
  cbn [py_getitem]. destruct (dict_get d key); intros w; reflexivity.
Qed.

Lemma keeps_calculate_signature payload secret :
  keeps obs (calculate_signature payload secret).
Proof. intros w. rewrite calculate_signature_world. reflexivity. Qed.

Section Printing.

Hypothesis obs_printed : forall w line, obs (printed w line) = obs w.

Lemma keeps_print line : keeps obs (print line).
Proof.
  intros w. unfold print. destruct (forallb printable line); cbn [snd];
    [apply obs_printed | reflexivity].
Qed.

Section Sending.

Hypothesis obs_requested : forall w req, obs (requested w req) = obs w.

Lemma keeps_urlopen req : keeps obs (urlopen req).
Proof.
  intros w. unfold urlopen. destruct (endpoint w req); cbn [snd]; apply obs_requested.
Qed.

Lemma keeps_submit_handlers e h :
  submit_handlers e = Some h -> keeps obs h.
Proof.
  unfold submit_handlers. destruct e; cbn [is_Exception]; intros [= <-];
    repeat first [ apply keeps_bind; [| intros ?]
                 | apply keeps_print | apply keeps_ret | apply keeps_read
                 | apply keeps_lift ].
Qed.

Lemma keeps_submit_attempt req : keeps obs (submit_attempt req).
Proof.
  unfold submit_attempt.
  repeat first [ apply keeps_bind; [| intros ?]
               | apply keeps_urlopen | apply keeps_read | apply keeps_lift
               | apply keeps_py_get ].
  destruct (truthy _);
    repeat first [ apply keeps_bind; [| intros ?]
                 | apply keeps_py_getitem | apply keeps_print | apply keeps_ret ].
Qed.

Lemma keeps_submit_application payload signature :
  keeps obs (submit_application payload signature).
Proof.
  unfold submit_application. apply keeps_bind; [apply keeps_lift | intros data].
  apply keeps_try; [apply keeps_submit_attempt | apply keeps_submit_handlers].
Qed.

End Sending.

Lemma keeps_after_payload payload :
  keeps obs
    (bind (print [Text (str "Created payload:")]) (fun _ =>
     bind (print [Text payload]) (fun _ =>
     bind (print []) (fun _ =>
     bind (calculate_signature payload signing_secret) (fun signature =>
     bind (print [Text (str "Calculated signature: "); Text signature]) (fun _ =>
     bind (print []) (fun _ => ret (payload, signature)))))))).
Proof.
  repeat first [ apply keeps_calculate_signature
               | apply keeps_print | apply keeps_ret
               | apply keeps_bind; [| intros ?] ].
Qed.

(** [main_prepare] changes an observation as reading the clock does. *)
Lemma main_prepare_obs w : obs (snd (main_prepare w)) = obs (ticked w).
Proof.
  unfold main_prepare. unfold bind at 1. unfold environ_get.
  unfold bind at 1. rewrite create_payload_run.
  apply keeps_after_payload.
Qed.

Section Appending.

Hypothesis obs_appended : forall w path line, obs (appended w path line) = obs w.

Lemma keeps_main_conclude receipt : keeps obs (main_conclude receipt).
Proof.
  unfold main_conclude. destruct (truthy receipt); [| apply keeps_throw].
  apply keeps_bind; [apply keeps_environ_get | intros output].
  apply keeps_bind; [| intros ?; apply keeps_throw].
  destruct output as [path |]; [| apply keeps_ret].
  intros w. unfold append_line. destruct (writable w path); cbn [snd];
    [apply obs_appended | reflexivity].
Qed.

End Appending.

End Printing.

End Keeps.

Section SubmitApplication.

Lemma encode_raises s e : Utf8.encode s = raise e -> e = UnicodeEncodeError.
Proof.
  revert e. induction s as [| c s IH]; intros e H; cbn [Utf8.encode] in H;
    [discriminate H |].
  destruct (Utf8.encode_char c); [| congruence].
  destruct (Utf8.encode s); [discriminate H |].
  injection H as <-. apply IH. reflexivity.
Qed.

(** X5. A payload that cannot be encoded makes [submit_application] raise
    [UnicodeEncodeError] before the [try] statement: nothing is sent and
    nothing is printed. *)
Theorem submit_unencodable_payload_raises
  (payload signature : pystr) (w : World)
  (Hpayload : utf8_encodable payload = false) :
  submit_application payload signature w = (raise UnicodeEncodeError, w).
Proof.
  unfold utf8_encodable in Hpayload.
  destruct (Utf8.encode payload) as [b | e] eqn:E; [discriminate Hpayload |].
  rewrite (submit_application_unencodable _ _ _ _ E).
  rewrite (encode_raises _ _ E). reflexivity.
Qed.

Lemma submit_unencodable_payload_witness :
  utf8_encodable lone_surrogate = false
  /\ submit_application lone_surrogate (str "sha256=00") accepting_world
     = (raise UnicodeEncodeError, accepting_world).
Proof.
  split; [reflexivity |].
  exact (submit_unencodable_payload_raises lone_surrogate (str "sha256=00")
           accepting_world eq_refl).
Defined.

(** X6. A call with an encodable payload hands exactly one request to
    [urlopen], whatever the answer (no retry): to the fixed URL, with the
    two headers, the signature as given, and a body that decodes back to
    the payload. It writes no file and does not read the clock. *)
Theorem submit_sends_exactly_one_request
  (payload signature : pystr) (data : bytes) (w : World)
  (Hpayload : Utf8.encode payload = ok data) :
  requests (snd (submit_application payload signature w))
  = requests w ++ [mk_request submission_url data (submission_headers signature)]
  /\ Utf8.decode data = ok payload
  /\ files (snd (submit_application payload signature w)) = files w
  /\ ticks (snd (submit_application payload signature w)) = ticks w.
Proof.
  destruct (submit_application_run payload signature data w Hpayload)
    as (w' & Hs & _ & Q).
  split; [rewrite Hs; exact Q |].
  split; [apply decode_encode; exact Hpayload |]. split.
  - apply (keeps_submit_application files); reflexivity.
  - apply (keeps_submit_application ticks); reflexivity.
Qed.

Lemma submit_sends_exactly_one_request_witness :
  Utf8.encode [0x7B; 0xE9; 0x7D] = ok [0x7B; 0xC3; 0xA9; 0x7D]
  /\ requests (snd (submit_application [0x7B; 0xE9; 0x7D] (str "sha256=00")
                      server_error_world))
     = requests server_error_world
       ++ [mk_request submission_url [0x7B; 0xC3; 0xA9; 0x7D]
             (submission_headers (str "sha256=00"))].
Proof.
  assert (H : Utf8.encode [0x7B; 0xE9; 0x7D] = ok [0x7B; 0xC3; 0xA9; 0x7D])
    by reflexivity.
  split; [exact H |].
  exact (proj1 (submit_sends_exactly_one_request [0x7B; 0xE9; 0x7D] (str "sha256=00")
                  [0x7B; 0xC3; 0xA9; 0x7D] server_error_world H)).
Defined.

(** X7. [submit_application] returns a value other than [None] only when
    the response has a success status, its body is UTF-8 and a JSON object
    whose [success] member counts as true (any true value, not only the
    boolean) and whose [receipt] member is present and not [null]; the
    value returned is that member, of whatever JSON type. *)
Theorem submit_returns_receipt_only_if
  (payload signature : pystr) (data : bytes) (w : World) (receipt : pyval)
  (Hpayload : Utf8.encode payload = ok data)
  (Hreturn : fst (submit_application payload signature w) = ok receipt)
  (Hreceipt : receipt <> PNone) :
  exists b text d success,
    endpoint w (submission_request data signature) = Response (ReadOk b)
    /\ Utf8.decode b = ok text
    /\ JsonDecoder.loads text = ok (PDict d)
    /\ dict_get d (str "success") = Some success
    /\ truthy success = true
    /\ dict_get d (str "receipt") = Some receipt.
Proof.
  destruct (submit_application_run payload signature data w Hpayload)
    as (w' & Hs & _ & _).
  rewrite Hs in Hreturn. cbn [fst] in Hreturn.
  destruct (endpoint w (submission_request data signature))
    as [[b |] | code reason [b |] |]; cbn [submission_result] in Hreturn;
    try (injection Hreturn as <-; contradiction).
  - injection Hreturn as Hr. unfold receipt_of_body in Hr.
    destruct (Utf8.decode b) as [text |] eqn:Ed; [| congruence].
    destruct (JsonDecoder.loads text) as [v |] eqn:El; [| congruence].
    destruct v as [| bb | z | fl | sx | l | d]; try congruence.
    destruct (dict_get d (str "success")) as [success |] eqn:Es;
      [| cbn in Hr; congruence].
    destruct (truthy success) eqn:Ht; [| congruence].
    destruct (dict_get d (str "receipt")) as [r |] eqn:Er; [| congruence].
    destruct (printable (Value r)) eqn:Ep; [| congruence].
    subst r. exists b, text, d, success. repeat split; assumption.
  - destruct (Utf8.decode b);
      [injection Hreturn as <-; contradiction | discriminate Hreturn].
  - discriminate Hreturn.
Qed.

Lemma submit_returns_receipt_witness :
  Utf8.encode (str "{}") = ok (str "{}")
  /\ fst (submit_application (str "{}") (str "sha256=00") string_flag_world)
     = ok (PInt 7)
  /\ PInt 7 <> PNone
  /\ exists b text d success,
       endpoint string_flag_world (submission_request (str "{}") (str "sha256=00"))
       = Response (ReadOk b)
       /\ Utf8.decode b = ok text
       /\ JsonDecoder.loads text = ok (PDict d)
       /\ dict_get d (str "success") = Some success
       /\ truthy success = true
       /\ dict_get d (str "receipt") = Some (PInt 7).
Proof.
  assert (H : Utf8.encode (str "{}") = ok (str "{}")) by reflexivity.
  assert (R : fst (submit_application (str "{}") (str "sha256=00") string_flag_world)
              = ok (PInt 7)) by (vm_compute; reflexivity).
  assert (N : PInt 7 <> PNone) by discriminate.
  split; [exact H |]. split; [exact R |]. split; [exact N |].
  exact (submit_returns_receipt_only_if (str "{}") (str "sha256=00") (str "{}")
           string_flag_world (PInt 7) H R N).
Defined.

(** X8. With an encodable payload, [submit_application] lets an exception out
    exactly when the response has an error status and its body cannot be
    read (the exception of [read], whichever it is, is the one let out) or
    is not UTF-8, the exception then being [UnicodeDecodeError]. It
    raises neither on a response with a success status nor when there is no
    response. *)
Theorem submit_raises_iff
  (payload signature : pystr) (data : bytes) (w : World)
  (Hpayload : Utf8.encode payload = ok data) :
  ((exists e, fst (submit_application payload signature w) = raise e)
   <-> exists code reason body,
         endpoint w (submission_request data signature)
         = ErrorResponse code reason body
         /\ (body = ReadFail
             \/ exists b e, body = ReadOk b /\ Utf8.decode b = raise e))
  /\ (forall code reason b e,
        endpoint w (submission_request data signature)
        = ErrorResponse code reason (ReadOk b) ->
        fst (submit_application payload signature w) = raise e ->
        e = UnicodeDecodeError).
Proof.
  destruct (submit_application_run payload signature data w Hpayload)
    as (w' & Hs & _ & _).
  rewrite Hs. cbn [fst]. split; [split |].
  - intros [e Hr].
    destruct (endpoint w (submission_request data signature))
      as [[b |] | code reason [b |] |]; cbn [submission_result] in Hr;
      try discriminate Hr.
    + exists code, reason, (ReadOk b). split; [reflexivity |]. right.
      destruct (Utf8.decode b) as [t | e'] eqn:Ed; [discriminate Hr |].
      exists b, e'. auto.
    + exists code, reason, ReadFail. auto.
  - intros (code & reason & body & Hn & [-> | (b & e & -> & Hd)]);
      rewrite Hn; cbn [submission_result].
    + eexists. reflexivity.
    + rewrite Hd. eexists. reflexivity.
  - intros code reason b e Hn Hr. rewrite Hn in Hr. cbn [submission_result] in Hr.
    destruct (Utf8.decode b) as [t | e'] eqn:Ed; [discriminate Hr |].
    injection Hr as <-. exact (decode_raises _ _ _ (Nat.le_refl _) Ed).
Qed.

Lemma submit_raises_witness :
  Utf8.encode (str "{}") = ok (str "{}")
  /\ exists e,
       fst (submit_application (str "{}") (str "sha256=00") broken_error_world)
       = raise e.
Proof.
  assert (H : Utf8.encode (str "{}") = ok (str "{}")) by reflexivity.
  split; [exact H |].
  apply (proj2 (proj1 (submit_raises_iff (str "{}") (str "sha256=00") (str "{}")
                         broken_error_world H))).
  exists 502, (str "Bad Gateway"), ReadFail. split; [reflexivity |].
  left. reflexivity.
Defined.

End SubmitApplication.

Section MainRun.

Lemma bind_tail {A C B} (obs : World -> B) (c : M A) (k : A -> M C) w :
  (forall a, keeps obs (k a)) -> obs (snd (bind c k w)) = obs (snd (c w)).
Proof.
  intros Hk. unfold bind. destruct (c w) as [[a | e] w1]; cbn [snd];
    [apply Hk | reflexivity].
Qed.

Lemma main_payload_encodable w :
  utf8_encodable (main_payload w) = utf8_encodable (run_link w).
Proof.
  unfold main_payload.
  destruct (utf8_encodable (run_link w)) eqn:E.
  - apply payload_of_encodable. repeat split; try reflexivity; [exact E |].
    apply timestamp_of_encodable.
  - destruct (utf8_encodable (payload_of _ _ _ _ _ _)) eqn:E'; [| reflexivity].
    apply payload_of_encodable in E'. destruct E' as (_ & _ & _ & _ & E' & _).
    congruence.
Qed.

Lemma main_prepare_unencodable w :
  utf8_encodable (run_link w) = false ->
  main_prepare w
  = (raise UnicodeEncodeError, printed (ticked w) [Text (str "Created payload:")]).
Proof.
  intros Hlink. rewrite <- main_payload_encodable in Hlink.
  unfold main_prepare.
  unfold bind at 1, environ_get.
  unfold bind at 1. rewrite create_payload_run.
  change (match environ w "GITHUB_RUN_URL" with
          | Some u => u | None => placeholder_run_link end) with (run_link w).
  change (payload_of _ _ _ _ _ _) with (main_payload w).
  unfold bind at 1. rewrite print_ok by reflexivity.
  unfold bind at 1. unfold print at 1. cbn [forallb printable].
  rewrite andb_true_r, Hlink. reflexivity.
Qed.

(** X9. When the run link can be encoded, a run of the script calls
    [urlopen] exactly once, whatever the call meets, and with this request:
    the fixed URL, the two headers, the signature being the HMAC-SHA256 of
    the very bytes of the body under the built-in secret. The body is
    UTF-8 for a JSON text that parses to the record of the applicant's
    constants, the run link of the environment (the placeholder when
    [GITHUB_RUN_URL] is unset) and the timestamp of the clock reading. *)
Theorem run_calls_urlopen_once_signed (w : World)
  (Hlink : utf8_encodable (run_link w) = true) :
  exists key body text,
    Utf8.encode signing_secret = ok key
    /\ requests (snd (run w))
       = requests w
         ++ [mk_request submission_url body
               (submission_headers
                  (str "sha256=" ++ hexlify (Rfc2104.hmac_sha256 key body)))]
    /\ Utf8.decode body = ok text
    /\ JsonDecoder.loads text = ok (main_record w).
Proof.
  rewrite <- main_payload_encodable in Hlink.
  destruct (main_prepare_run w)
    as (w1 & _ & _ & [(pb & sb & Hpb & Hsb & Hp) | [Hu _]]); [| congruence].
  exists sb, pb, (main_payload w).
  split; [exact Hsb |]. split; [| split].
  - rewrite run_world.
    destruct (main_run w) as [(w1' & Hp' & _) | (pb' & sig & w1' & w2 & Hpb' & Hp' & _ & _ & Q & Hm)];
      [congruence |].
    assert (pb' = pb) by congruence. subst pb'.
    assert (sig = str "sha256=" ++ hexlify (Rfc2104.hmac_sha256 sb pb)) by congruence.
    subst sig. rewrite Hm.
    change (mk_request submission_url pb (submission_headers ?s))
      with (submission_request pb s).
    destruct (submission_result _) as [receipt | e]; cbn [snd]; [| exact Q].
    rewrite (keeps_main_conclude requests); [exact Q | reflexivity].
  - apply decode_encode. exact Hpb.
  - apply loads_payload_of.
Qed.

Lemma run_calls_urlopen_once_signed_witness :
  utf8_encodable (run_link server_error_world) = true
  /\ exists key body text,
       Utf8.encode signing_secret = ok key
       /\ requests (snd (run server_error_world))
          = requests server_error_world
            ++ [mk_request submission_url body
                  (submission_headers
                     (str "sha256=" ++ hexlify (Rfc2104.hmac_sha256 key body)))]
       /\ Utf8.decode body = ok text
       /\ JsonDecoder.loads text = ok (main_record server_error_world).
Proof.
  split; [reflexivity |].
  exact (run_calls_urlopen_once_signed server_error_world eq_refl).
Defined.

(** X10. A run link with a lone surrogate (an environment value that was
    not valid UTF-8) ends the run before anything is sent: the
    [UnicodeEncodeError] of the strict encoding reaches the top level, the
    exit status is 1, [urlopen] is not called and nothing is appended to a
    file. *)
Theorem run_with_unencodable_link (w : World)
  (Hlink : utf8_encodable (run_link w) = false) :
  fst (main w) = raise UnicodeEncodeError
  /\ fst (run w) = 1
  /\ requests (snd (run w)) = requests w
  /\ files (snd (run w)) = files w.
Proof.
  pose proof (main_prepare_unencodable w Hlink) as Hp.
  rewrite run_exit, run_world. unfold main.
  rewrite (bind_raise _ _ _ _ _ Hp). cbn [fst snd exit_code].
  repeat split.
Qed.

Lemma run_with_unencodable_link_witness :
  utf8_encodable (run_link undecodable_link_world) = false
  /\ fst (main undecodable_link_world) = raise UnicodeEncodeError
  /\ fst (run undecodable_link_world) = 1
  /\ requests (snd (run undecodable_link_world)) = requests undecodable_link_world
  /\ files (snd (run undecodable_link_world)) = files undecodable_link_world.
Proof.
  split; [reflexivity |].
  exact (run_with_unencodable_link undecodable_link_world eq_refl).
Defined.

(** X11. The output file: a run that exits with 0 got from
    [submit_application] a value that counts as true and, when
    [GITHUB_OUTPUT] is set, made one [print] to the file it names, of
    [receipt=] followed by that value as [str()] gives it, unescaped (so
    a receipt with a line feed in it puts more than one line there), and
    appended nothing else; a run that exits with another status has
    appended nothing to any file. *)
Theorem run_appends_receipt_once (w : World) :
  (fst (run w) = 0 ->
   exists payload signature w1 receipt w2,
     main_prepare w = (ok (payload, signature), w1)
     /\ submit_application payload signature w1 = (ok receipt, w2)
     /\ truthy receipt = true
     /\ files (snd (run w))
        = files w ++ match environ w "GITHUB_OUTPUT" with
                     | Some path => [(path, receipt_print receipt)]
                     | None => []
                     end)
  /\ (fst (run w) <> 0 -> files (snd (run w)) = files w).
Proof.
  rewrite run_exit, run_world.
  destruct (main_run w)
    as [(w1 & Hp & Hr & _)
       | (pb & sig & w1 & w2 & Hpb & Hp & F & Hs & _ & Hm)].
  - rewrite Hr. cbn [exit_code]. split; [discriminate |]. intros _.
    unfold main. rewrite (bind_raise _ _ _ _ _ Hp). cbn [snd].
    pose proof (main_prepare_obs files (fun _ _ => eq_refl) w) as K. rewrite Hp in K. exact K.
  - assert (F1 : files w1 = files w).
    { pose proof (main_prepare_obs files (fun _ _ => eq_refl) w) as K. rewrite Hp in K. exact K. }
    assert (F2 : files w2 = files w).
    { pose proof (keeps_submit_application files (fun _ _ => eq_refl)
                    (fun _ _ => eq_refl) (main_payload w) sig w1) as K.
      rewrite Hs in K. cbn [snd] in K. congruence. }
    assert (Henv : environ w2 = environ w) by apply F.
    rewrite Hm.
    destruct (submission_result _) as [receipt | e] eqn:Er.
    + destruct (truthy receipt) eqn:Ht.
      * rewrite (main_conclude_true _ _ Ht), Henv.
        destruct (environ w "GITHUB_OUTPUT") as [path |];
          [destruct (writable w2 path) |]; cbn [fst snd exit_code].
        -- split; [| intros H; contradiction H; reflexivity].
           intros _. exists (main_payload w), sig, w1, receipt, w2.
           split; [exact Hp |]. split; [exact Hs |]. split; [exact Ht |].
           cbn [files appended]. rewrite F2. reflexivity.
        -- split; [discriminate | intros _; exact F2].
        -- split; [| intros H; contradiction H; reflexivity].
           intros _. exists (main_payload w), sig, w1, receipt, w2.
           split; [exact Hp |]. split; [exact Hs |]. split; [exact Ht |].
           rewrite F2, app_nil_r. reflexivity.
      * rewrite (main_conclude_false _ _ Ht). cbn [fst snd exit_code].
        split; [discriminate | intros _; exact F2].
    + cbn [fst snd]. destruct (submission_result_raises _ _ Er) as [-> | ->];
        cbn [exit_code]; (split; [discriminate | intros _; exact F2]).
Qed.

Lemma run_appends_receipt_once_witness :
  fst (run accepting_world) = 0
  /\ exists payload signature w1 receipt w2,
       main_prepare accepting_world = (ok (payload, signature), w1)
       /\ submit_application payload signature w1 = (ok receipt, w2)
       /\ truthy receipt = true
       /\ files (snd (run accepting_world))
          = files accepting_world
            ++ match environ accepting_world "GITHUB_OUTPUT" with
               | Some path => [(path, receipt_print receipt)]
               | None => []
               end.
Proof.
  assert (H : fst (run accepting_world) = 0) by (vm_compute; reflexivity).
  split; [exact H |].
  exact (proj1 (run_appends_receipt_once accepting_world) H).
Defined.

(** X12. Every run reads the clock exactly once, however it ends. *)
Theorem run_reads_clock_once (w : World) :
  ticks (snd (run w)) = S (ticks w).
Proof.
  rewrite run_world. unfold main. rewrite bind_tail.
  - apply (main_prepare_obs ticks). reflexivity.
  - intros prepared. apply keeps_bind.
    + apply keeps_submit_application; reflexivity.
    + intros receipt. apply keeps_main_conclude; reflexivity.
Qed.

End MainRun.
